(** * ern-local-cli/src/lib/utils.js: a shallow embedding

    The functions of [utils.js] are glue: each one sequences calls to
    external collaborators (the Cauldron client, the container generator,
    [Ensure], [ora] spinners, the logger, [process]).  They are embedded as
    programs over a signature of external calls; a handler (the
    environment) answers every call, and running a program against a
    handler yields its completion, the final state of the environment and
    the trace of the calls that were made, each with its answer.

    A call is atomic: the environment answers it, and changes its state,
    when the call is made.  A call that fails is a promise that rejects
    (or, for a synchronous call, an error that is thrown); [await]ing the
    promise throws the error, and dropping the promise drops it.

    The theorems about [performContainerStateUpdateInCauldron],
    [logErrorAndExitIfNotSatisfied], [runMiniApp] and
    [getNapDescriptorStringsFromCauldron] hold for every environment; a
    model of the state store, written from the spec, gives them concrete
    instances. *)

From Stdlib Require Import String Ascii List ZArith Bool Lia DecimalString.
From stdpp Require Import base strings gmap list.

Local Open Scope string_scope.
Local Open Scope list_scope.

(** ** JavaScript data *)

(** An [Error] object: its [name] and its [message]. *)
Record JsError := mkError { err_name : string; err_message : string }.

(** [new Error(msg)]. *)
Definition new_Error (msg : string) : JsError := mkError "Error" msg.

(** [`${e}`] for an error: [Error.prototype.toString]. *)
Definition error_toString (e : JsError) : string :=
  if String.eqb (err_name e) "" then err_message e
  else if String.eqb (err_message e) "" then err_name e
  else err_name e +:+ ": " +:+ err_message e.

(** An optional string ([string | undefined | null]); [None] is the absent
    value.  JavaScript tests such a value by truthiness: the absent value
    and the empty string are both falsy. *)
Definition truthy (v : option string) : bool :=
  match v with
  | Some s => negb (String.eqb s "")
  | None => false
  end.

(** [`${v}`] for a container version that is a string or [null]. *)
Definition template_version (v : option string) : string :=
  match v with
  | Some s => s
  | None => "null"
  end.

(** A native application descriptor, the triple [name:platform:version]. *)
Record NativeApplicationDescriptor := mkDescriptor {
  nap_name : string;
  nap_platform : string;
  nap_version : string
}.

(** Modelled from the spec: [NativeApplicationDescriptor.toString] (ern-util),
    the canonical string form [name:platform:version]. *)
Definition nap_toString (d : NativeApplicationDescriptor) : string :=
  nap_name d +:+ ":" +:+ nap_platform d +:+ ":" +:+ nap_version d.

(** What [cauldron.getAllNativeApps()] resolves to. *)
Record NativeAppVersion := mkVersion { version_name : string; isReleased : bool }.
Record NativeAppPlatform := mkPlatform {
  platform_name : string;
  versions : list NativeAppVersion
}.
Record NativeApp := mkNativeApp {
  app_name : string;
  platforms : list NativeAppPlatform
}.

(** The values that [_.map], [_.flattenDeep] and [_.filter] handle in
    [getNapDescriptorStringsFromCauldron]: strings, [undefined], and
    arrays of such values nested to any depth. *)
#[warnings="-register-all"]
Inductive jsval :=
| JUndefined
| JStr (s : string)
| JArr (elts : list jsval).

(** Options of the container generator. *)
Record GenOptions := mkGenOptions {
  publish : bool;
  containerName : option string
}.

(** The [semver] package: [semver.inc(version, release)] returns the
    incremented version, or [null] when [version] is not a valid one. *)
Class SemverApi := { semver_inc : string -> string -> option string }.

(** ** Preconditions of [logErrorAndExitIfNotSatisfied] *)

(** The flow type [string | Array<string>]. *)
Inductive StringOrArray :=
| OneString (s : string)
| ManyStrings (l : list string).

(** One call to a static method of [Ensure], with its arguments; the last
    argument is always the [extraErrorMessage]. *)
Inductive EnsureCall :=
| Ensure_cauldronIsActive (extra : option string)
| Ensure_isValidContainerVersion (containerVersion : string) (extra : option string)
| Ensure_isNewerContainerVersion (descriptor containerVersion : string)
    (extra : option string)
| Ensure_isCompleteNapDescriptorString (descriptor : string) (extra : option string)
| Ensure_noGitOrFilesystemPath (obj : StringOrArray) (extra : option string)
| Ensure_napDescritorExistsInCauldron (descriptor : string) (extra : option string)
| Ensure_napDescritorDoesNotExistsInCauldron (descriptor : string)
    (extra : option string)
| Ensure_publishedToNpm (obj : StringOrArray) (extra : option string)
| Ensure_miniAppNotInNativeApplicationVersionContainer
    (miniApp : option StringOrArray) (napDescriptor : NativeApplicationDescriptor)
    (extra : option string)
| Ensure_miniAppIsInNativeApplicationVersionContainer
    (miniApp : option StringOrArray) (napDescriptor : NativeApplicationDescriptor)
    (extra : option string)
| Ensure_miniAppIsInNativeApplicationVersionContainerWithDifferentVersion
    (miniApp : option StringOrArray) (napDescriptor : NativeApplicationDescriptor)
    (extra : option string)
| Ensure_dependencyNotInNativeApplicationVersionContainer
    (dependency : option StringOrArray) (napDescriptor : NativeApplicationDescriptor)
    (extra : option string)
| Ensure_dependencyIsInNativeApplicationVersionContainer
    (dependency : option StringOrArray) (napDescriptor : NativeApplicationDescriptor)
    (extra : option string)
| Ensure_dependencyIsInNativeApplicationVersionContainerWithDifferentVersion
    (dependency : option StringOrArray) (napDescriptor : NativeApplicationDescriptor)
    (extra : option string)
| Ensure_dependencyNotInUseByAMiniApp
    (dependency : option StringOrArray) (napDescriptor : NativeApplicationDescriptor)
    (extra : option string).

(** ** External calls *)

Record MiniAppObj := mkMiniApp { miniapp_name : string }.
Record IPhoneDevice := mkDevice { udid : string; device_name : string }.

(** What the parsers of ern-util build from a string; the string is kept
    as it is. *)
Inductive DependencyPath :=
| DependencyPath_fromFileSystemPath (p : string)
| DependencyPath_fromString (s : string).

Inductive Dependency :=
| Dependency_fromString (s : string).

(** The calls [utils.js] makes to its collaborators, with the arguments
    that [utils.js] computes; the runner project generators are also given
    paths of the platform, which are left out. *)
Inductive ext : Type :=
(* the Cauldron client (ern-core) *)
| cauldron_getAllNativeApps
| cauldron_getTopLevelContainerVersion (d : NativeApplicationDescriptor)
| cauldron_beginTransaction
| cauldron_updateContainerVersion (d : NativeApplicationDescriptor)
    (v : option string)
| cauldron_commitTransaction
| cauldron_discardTransaction
(* the callback passed to performContainerStateUpdateInCauldron *)
| stateUpdateFunc
(* ./publication *)
| runCauldronContainerGen (d : NativeApplicationDescriptor)
    (v : option string) (o : GenOptions)
| runLocalContainerGen (miniAppsPaths : list DependencyPath) (platform : string)
    (containerVersion nativeAppName : string)
    (extraNativeDependencies : list Dependency)
(* ./Ensure *)
| Ensure (c : EnsureCall)
(* the logger, ora spinners, the spin helper of ern-util, process *)
| log_error (msg : string)
| log_debug (msg : string)
| log_info (msg : string)
| ora_start (text : string)
| spinner_text (text : string)
| spinner_succeed (text : string)
| spinner_fail (text : string)
| spin_start (msg : string)
| process_exit (code : Z)
| process_cwd
(* ern-core, ern-runner-gen, ern-util, fs, child_process *)
| MiniApp_existInPath (p : string)
| MiniApp_fromPath (p : string)
| MiniApp_fromCurrentPath
| reactnative_startPackagerInNewWindow (cwd : string)
| fs_existsSync (p : string)
| shell_mkdir (p : string)
| shell_cd (p : string)
| generateAndroidRunnerProject (pathToRunner entryMiniAppName : string)
    (reactNativeDevSupportEnabled : option bool)
| regenerateAndroidRunnerConfig (pathToRunner entryMiniAppName : string)
    (reactNativeDevSupportEnabled : option bool)
| generateIosRunnerProject (pathToRunner entryMiniAppName : string)
    (reactNativeDevSupportEnabled : option bool)
| regenerateIosRunnerConfig (pathToRunner entryMiniAppName : string)
    (reactNativeDevSupportEnabled : option bool)
| runAndroidProject (projectPath packageName : string)
| ios_askUserToSelectAniPhoneDevice
| ios_killAllRunningSimulators
| ios_launchSimulator (device : string)
| ios_installApplicationOnDevice (device path : string)
| ios_launchApplication (device bundleId : string)
| xcodebuild (pathToIosRunner deviceName : string).

(** The type of what a call returns (or resolves to). *)
Definition ret_type (c : ext) : Type :=
  match c with
  | cauldron_getAllNativeApps => list NativeApp
  | cauldron_getTopLevelContainerVersion _ => option string
  | process_cwd => string
  | MiniApp_existInPath _ | fs_existsSync _ => bool
  | MiniApp_fromPath _ | MiniApp_fromCurrentPath => MiniAppObj
  | ios_askUserToSelectAniPhoneDevice => IPhoneDevice
  | _ => unit
  end.

(** How a call ends: it returns (its promise resolves) with a value, or it
    throws (its promise rejects) with an error. *)
Inductive settled (T : Type) :=
| Resolved (v : T)
| Rejected (e : JsError).
Arguments Resolved {T} v.
Arguments Rejected {T} e.

(** ** Programs *)

(** A program returns, throws, terminates the process, or makes an
    external call and goes on with its answer. *)
Inductive prog (R : Type) : Type :=
| Ret (r : R)
| Throw (e : JsError)
| Exit (code : Z)
| Vis (c : ext) (k : settled (ret_type c) -> prog R).
Arguments Ret {R} r.
Arguments Throw {R} e.
Arguments Exit {R} code.
Arguments Vis {R} c k.

Fixpoint bind {A B : Type} (p : prog A) (f : A -> prog B) : prog B :=
  match p with
  | Ret a => f a
  | Throw e => Throw e
  | Exit code => Exit code
  | Vis c k => Vis c (fun a => bind (k a) f)
  end.

(** [try { p } catch (e) { handler e }]; a terminated process is not caught. *)
Fixpoint try_catch {A : Type} (p : prog A) (handler : JsError -> prog A) : prog A :=
  match p with
  | Ret a => Ret a
  | Throw e => handler e
  | Exit code => Exit code
  | Vis c k => Vis c (fun a => try_catch (k a) handler)
  end.

Declare Scope prog_scope.
Delimit Scope prog_scope with prog.
Notation "x <- p ;; q" := (bind p (fun x => q))
  (at level 100, p at next level, right associativity) : prog_scope.
Notation "p ;; q" := (bind p (fun _ => q))
  (at level 100, right associativity) : prog_scope.
Local Open Scope prog_scope.

(** [f(args)] without [await]: the call is made and its promise obtained. *)
Definition call (c : ext) : prog (settled (ret_type c)) :=
  Vis c (fun a => Ret a).

(** [await promise]: the resolved value, or the rejection thrown. *)
Definition await {T : Type} (a : settled T) : prog T :=
  match a with
  | Resolved v => Ret v
  | Rejected e => Throw e
  end.

(** A synchronous call [f(args)]: the returned value, or the error thrown. *)
Definition invoke (c : ext) : prog (ret_type c) :=
  Vis c (fun a => await a).

(** A call to the logger, a spinner or [process]: made for its effect;
    these calls are taken not to throw. *)
Definition tell (c : ext) : prog unit :=
  Vis c (fun _ => Ret tt).

(** The [spin(msg, promise)] helper of ern-util: it shows a spinner while
    the promise, which its caller has already created, is pending, and
    settles as the promise does. *)
Definition spin {T : Type} (msg : string) (promise : settled T) : prog T :=
  tell (spin_start msg) ;; await promise.

(** ** Running a program *)

(** One entry of a trace: the call that was made and how it settled. *)
Inductive entry :=
| Entry (c : ext) (a : settled (ret_type c)).

Definition trace := list entry.

(** How a program ends. *)
Inductive completion (R : Type) :=
| Returned (r : R)
| Threw (e : JsError)
| Exited (code : Z).
Arguments Returned {R} r.
Arguments Threw {R} e.
Arguments Exited {R} code.

(** The environment: it answers every call, from its state [W]. *)
Definition handler (W : Type) := forall c : ext, W -> settled (ret_type c) * W.

Fixpoint run {W R : Type} (h : handler W) (p : prog R) (w : W)
  : completion R * W * trace :=
  match p with
  | Ret r => (Returned r, w, [])
  | Throw e => (Threw e, w, [])
  | Exit code => (Exited code, w, [])
  | Vis c k =>
      let (a, w1) := h c w in
      let '(r, w2, tr) := run h (k a) w1 in
      (r, w2, Entry c a :: tr)
  end.

Definition outcome {W R : Type} (x : completion R * W * trace) : completion R :=
  fst (fst x).
Definition final {W R : Type} (x : completion R * W * trace) : W :=
  snd (fst x).
Definition calls {W R : Type} (x : completion R * W * trace) : trace :=
  snd x.

(** What a trace shows of an entry: the call, and the error when the call
    failed. *)
Definition rejection {T : Type} (a : settled T) : option JsError :=
  match a with
  | Resolved _ => None
  | Rejected e => Some e
  end.

Definition observe (x : entry) : ext * option JsError :=
  match x with
  | Entry c a => (c, rejection a)
  end.

Definition observed {W R : Type} (x : completion R * W * trace)
  : list (ext * option JsError) :=
  map observe (calls x).

(** ** getNapDescriptorStringsFromCauldron (utils.js, lines 50-72) *)

(** [_.map(array, f)]. *)
Definition lodash_map {A : Type} (l : list A) (f : A -> jsval) : jsval :=
  JArr (map f l).

(** The elements that [_.flattenDeep] puts in place of one element: an
    array is replaced by its own elements, flattened in turn. *)
Fixpoint flattenDeep_elt (v : jsval) : list jsval :=
  match v with
  | JArr elts =>
      (fix over (l : list jsval) : list jsval :=
         match l with
         | [] => []
         | x :: r => flattenDeep_elt x ++ over r
         end) elts
  | _ => [v]
  end.

(** [_.flattenDeep(array)]; what is not an array has no elements. *)
Definition lodash_flattenDeep (v : jsval) : jsval :=
  match v with
  | JArr _ => JArr (flattenDeep_elt v)
  | _ => JArr []
  end.

(** [_.filter(array, pred)]. *)
Definition lodash_filter (v : jsval) (pred : jsval -> bool) : jsval :=
  match v with
  | JArr elts => JArr (List.filter pred elts)
  | _ => JArr []
  end.

(** [elt !== undefined]. *)
Definition is_defined (elt : jsval) : bool :=
  match elt with
  | JUndefined => false
  | _ => true
  end.

(** An optional boolean flag, tested by truthiness. *)
Definition flag (b : option bool) : bool :=
  match b with
  | Some true => true
  | _ => false
  end.

Record NapFilter := mkNapFilter {
  filter_platform : option string;
  onlyReleasedVersions : option bool;
  onlyNonReleasedVersions : option bool
}.

(** The arrow function applied to every version (lines 64-70); it returns
    [undefined] when no [return] is reached. *)
Definition napDescriptorString_or_undefined (o : NapFilter)
  (nativeApp : NativeApp) (p : NativeAppPlatform) (version : NativeAppVersion)
  : jsval :=
  if negb (truthy (filter_platform o))
     || bool_decide (filter_platform o = Some (platform_name p))
  then
    if (isReleased version && negb (flag (onlyNonReleasedVersions o)))
       || (negb (isReleased version) && negb (flag (onlyReleasedVersions o)))
    then JStr (app_name nativeApp +:+ ":" +:+ platform_name p +:+ ":"
               +:+ version_name version)
    else JUndefined
  else JUndefined.

(** Lines 60-71, on the array [nativeApps]. *)
Definition napDescriptorStrings (o : NapFilter) (nativeApps : list NativeApp)
  : jsval :=
  lodash_filter
    (lodash_flattenDeep
       (lodash_map nativeApps (fun nativeApp =>
          lodash_map (platforms nativeApp) (fun p =>
            lodash_map (versions p) (fun version =>
              napDescriptorString_or_undefined o nativeApp p version)))))
    is_defined.

Definition getNapDescriptorStringsFromCauldron (o : NapFilter) : prog jsval :=
  promise <- call cauldron_getAllNativeApps ;;
  nativeApps <- await promise ;;
  Ret (napDescriptorStrings o nativeApps).

(** ** logErrorAndExitIfNotSatisfied (utils.js, lines 77-267) *)

(** The parameter objects of the preconditions. *)
Record ExtraOnly := mkExtraOnly { eo_extraErrorMessage : option string }.
Record ObjArg := mkObjArg {
  oa_obj : StringOrArray;
  oa_extraErrorMessage : option string
}.
Record ContainerVersionArg := mkContainerVersionArg {
  cv_containerVersion : string;
  cv_extraErrorMessage : option string
}.
Record NewerContainerVersionArg := mkNewerContainerVersionArg {
  nv_descriptor : string;
  nv_containerVersion : string;
  nv_extraErrorMessage : option string
}.
Record DescriptorArg := mkDescriptorArg {
  da_descriptor : string;
  da_extraErrorMessage : option string
}.
Record MiniAppArg := mkMiniAppArg {
  ma_miniApp : option StringOrArray;
  ma_napDescriptor : NativeApplicationDescriptor;
  ma_extraErrorMessage : option string
}.
Record DependencyArg := mkDependencyArg {
  dp_dependency : option StringOrArray;
  dp_napDescriptor : NativeApplicationDescriptor;
  dp_extraErrorMessage : option string
}.

(** The object that [logErrorAndExitIfNotSatisfied] destructures: every
    key is optional, [None] is an absent key. *)
Record Preconditions := mkPreconditions {
  noGitOrFilesystemPath : option ObjArg;
  isValidContainerVersion : option ContainerVersionArg;
  isNewerContainerVersion : option NewerContainerVersionArg;
  isCompleteNapDescriptorString : option DescriptorArg;
  napDescriptorExistInCauldron : option DescriptorArg;
  napDescritorDoesNotExistsInCauldron : option DescriptorArg;
  publishedToNpm : option ObjArg;
  miniAppNotInNativeApplicationVersionContainer : option MiniAppArg;
  miniAppIsInNativeApplicationVersionContainer : option MiniAppArg;
  miniAppIsInNativeApplicationVersionContainerWithDifferentVersion :
    option MiniAppArg;
  dependencyNotInNativeApplicationVersionContainer : option DependencyArg;
  dependencyIsInNativeApplicationVersionContainer : option DependencyArg;
  dependencyIsInNativeApplicationVersionContainerWithDifferentVersion :
    option DependencyArg;
  dependencyNotInUseByAMiniApp : option DependencyArg;
  cauldronIsActive : option ExtraOnly
}.

(** The default [= {}]: no key is present. *)
Definition no_preconditions : Preconditions :=
  mkPreconditions None None None None None None None None None None None None
    None None None.

(** [if (key) { spinner.text = text; <check> }]: an object is always
    truthy, so the test is the presence of the key. *)
Definition ifPresent {A : Type} (key : option A) (text : string)
  (check : A -> prog unit) : prog unit :=
  match key with
  | Some a => tell (spinner_text text) ;; check a
  | None => Ret tt
  end.

(** [process.exit(code)]: the process terminates. *)
Definition exit (code : Z) : prog unit :=
  Vis (process_exit code) (fun _ => Exit code).

(** [Ensure.check(args)]: a synchronous check, which throws when it fails. *)
Definition Ensure_sync (c : EnsureCall) : prog unit := invoke (Ensure c).

(** [await Ensure.check(args)]: an asynchronous check, whose promise
    rejects when it fails. *)
Definition Ensure_await (c : EnsureCall) : prog unit :=
  promise <- call (Ensure c) ;; await promise.

Definition logErrorAndExitIfNotSatisfied (p : Preconditions) : prog unit :=
  tell (ora_start "Performing initial checks") ;;
  try_catch
    (ifPresent (cauldronIsActive p)
       "Ensuring that a Cauldron is active"
       (fun a => Ensure_sync (Ensure_cauldronIsActive (eo_extraErrorMessage a))) ;;
     ifPresent (isValidContainerVersion p)
       "Ensuring that container version is valid"
       (fun a => Ensure_sync (Ensure_isValidContainerVersion
          (cv_containerVersion a) (cv_extraErrorMessage a))) ;;
     ifPresent (isNewerContainerVersion p)
       "Ensuring that container version is newer compared to the current one"
       (fun a => Ensure_await (Ensure_isNewerContainerVersion
          (nv_descriptor a) (nv_containerVersion a) (nv_extraErrorMessage a))) ;;
     ifPresent (isCompleteNapDescriptorString p)
       "Ensuring that native application descriptor is complete"
       (fun a => Ensure_sync (Ensure_isCompleteNapDescriptorString
          (da_descriptor a) (da_extraErrorMessage a))) ;;
     ifPresent (noGitOrFilesystemPath p)
       "Ensuring that not git or file system path(s) is/are used"
       (fun a => Ensure_sync (Ensure_noGitOrFilesystemPath
          (oa_obj a) (oa_extraErrorMessage a))) ;;
     ifPresent (napDescriptorExistInCauldron p)
       "Ensuring that native application descriptor exists in Cauldron"
       (fun a => Ensure_await (Ensure_napDescritorExistsInCauldron
          (da_descriptor a) (da_extraErrorMessage a))) ;;
     ifPresent (napDescritorDoesNotExistsInCauldron p)
       "Ensuring that native application descriptor does not already exist in Cauldron"
       (fun a => Ensure_await (Ensure_napDescritorDoesNotExistsInCauldron
          (da_descriptor a) (da_extraErrorMessage a))) ;;
     ifPresent (publishedToNpm p)
       "Ensuring that package(s) version(s) have been published to NPM"
       (fun a => Ensure_await (Ensure_publishedToNpm
          (oa_obj a) (oa_extraErrorMessage a))) ;;
     ifPresent (miniAppNotInNativeApplicationVersionContainer p)
       "Ensuring that MiniApp(s) is/are not present in native application version container"
       (fun a => Ensure_await (Ensure_miniAppNotInNativeApplicationVersionContainer
          (ma_miniApp a) (ma_napDescriptor a) (ma_extraErrorMessage a))) ;;
     ifPresent (miniAppIsInNativeApplicationVersionContainer p)
       "Ensuring that MiniApp(s) is/are present in native application version container"
       (fun a => Ensure_await (Ensure_miniAppIsInNativeApplicationVersionContainer
          (ma_miniApp a) (ma_napDescriptor a) (ma_extraErrorMessage a))) ;;
     ifPresent (miniAppIsInNativeApplicationVersionContainerWithDifferentVersion p)
       "Ensuring that MiniApp(s) is/are present in native application version container with different version(s)"
       (fun a => Ensure_await
          (Ensure_miniAppIsInNativeApplicationVersionContainerWithDifferentVersion
             (ma_miniApp a) (ma_napDescriptor a) (ma_extraErrorMessage a))) ;;
     ifPresent (dependencyNotInNativeApplicationVersionContainer p)
       "Ensuring that dependency(ies) is/are not present in native application version container"
       (fun a => Ensure_await (Ensure_dependencyNotInNativeApplicationVersionContainer
          (dp_dependency a) (dp_napDescriptor a) (dp_extraErrorMessage a))) ;;
     ifPresent (dependencyIsInNativeApplicationVersionContainer p)
       "Ensuring that dependency(ies) is/are present in native application version container"
       (fun a => Ensure_await (Ensure_dependencyIsInNativeApplicationVersionContainer
          (dp_dependency a) (dp_napDescriptor a) (dp_extraErrorMessage a))) ;;
     ifPresent (dependencyIsInNativeApplicationVersionContainerWithDifferentVersion p)
       "Ensuring that dependency(ies) is/are present in native application version container with different version(s)"
       (fun a => Ensure_await
          (Ensure_dependencyIsInNativeApplicationVersionContainerWithDifferentVersion
             (dp_dependency a) (dp_napDescriptor a) (dp_extraErrorMessage a))) ;;
     ifPresent (dependencyNotInUseByAMiniApp p)
       "Ensuring that no MiniApp(s) is/are using a dependency"
       (fun a => Ensure_await (Ensure_dependencyNotInUseByAMiniApp
          (dp_dependency a) (dp_napDescriptor a) (dp_extraErrorMessage a))) ;;
     tell (spinner_succeed "All initial checks have passed"))
    (fun e =>
       tell (spinner_fail (err_message e)) ;;
       exit 1).

(** ** performContainerStateUpdateInCauldron (utils.js, lines 303-349) *)

(** Lines 310-321: the value of [cauldronContainerVersion] when the [try]
    block is entered. *)
Definition selectContainerVersion `{SemverApi}
  (napDescriptor : NativeApplicationDescriptor)
  (containerVersion : option string) : prog (option string) :=
  if truthy containerVersion then Ret containerVersion
  else
    promise <- call (cauldron_getTopLevelContainerVersion napDescriptor) ;;
    cauldronContainerVersion <- await promise ;;
    if truthy cauldronContainerVersion
    then Ret (semver_inc (default "" cauldronContainerVersion) "patch")
    else
      (* Default to 1.0.0 for Container version *)
      Ret (Some "1.0.0").

(** Lines 323-343: the body of the [try] block. *)
Definition containerStateUpdate_try
  (napDescriptor : NativeApplicationDescriptor)
  (cauldronContainerVersion : option string) : prog unit :=
  (* Begin a Cauldron transaction *)
  begun <- call cauldron_beginTransaction ;;
  await begun ;;
  (* Perform the custom container state update *)
  updated <- call stateUpdateFunc ;;
  await updated ;;
  (* Run container generator *)
  generation <- call (runCauldronContainerGen napDescriptor
                        cauldronContainerVersion (mkGenOptions true None)) ;;
  spin ("Generating new container version "
        +:+ template_version cauldronContainerVersion
        +:+ " for " +:+ nap_toString napDescriptor) generation ;;
  (* Update container version in Cauldron *)
  written <- call (cauldron_updateContainerVersion napDescriptor
                     cauldronContainerVersion) ;;
  await written ;;
  (* Commit Cauldron transaction *)
  committed <- call cauldron_commitTransaction ;;
  spin "Updating Cauldron" committed ;;
  tell (log_debug ("Published new container version "
                   +:+ template_version cauldronContainerVersion
                   +:+ " for " +:+ nap_toString napDescriptor)).

(** Lines 344-348: the [catch] block.  [cauldron.discardTransaction()] is
    called without [await]: the promise it returns is dropped, whether it
    resolves or rejects. *)
Definition containerStateUpdate_catch (e : JsError) : prog unit :=
  tell (log_error ("[performContainerStateUpdateInCauldron] An error happened "
                   +:+ error_toString e)) ;;
  _ <- call cauldron_discardTransaction ;;
  Throw e.

(** The function.  Its first parameter, [stateUpdateFunc], is a function
    of the caller: what it does is unknown here, so calling it is the
    external call [stateUpdateFunc], which the environment answers.  Its
    last parameter is the [containerVersion] of the options object, [None]
    when the key is absent. *)
Definition performContainerStateUpdateInCauldron `{SemverApi}
  (napDescriptor : NativeApplicationDescriptor)
  (containerVersion : option string) : prog unit :=
  cauldronContainerVersion <- selectContainerVersion napDescriptor containerVersion ;;
  try_catch
    (containerStateUpdate_try napDescriptor cauldronContainerVersion)
    containerStateUpdate_catch.

(** ** runMiniApp and its helpers (utils.js, lines 360-566) *)

Record RunMiniAppOptions := mkRunMiniAppOptions {
  mainMiniAppName : option string;
  miniapps : option (list string);
  dependencies : option (list string);
  descriptor : option string;
  dev : option bool
}.

(** Splits a string at every occurrence of [sep]. *)
Fixpoint split_at (sep : ascii) (s : string) : list string :=
  match s with
  | EmptyString => [""]
  | String c r =>
      if Ascii.eqb c sep then "" :: split_at sep r
      else match split_at sep r with
           | [] => [String c ""]
           | w :: ws => String c w :: ws
           end
  end.

(** Modelled from the spec: [NativeApplicationDescriptor.fromString]
    (ern-util), the parser of the canonical form [name:platform:version];
    a missing component is left empty. *)
Definition nap_fromString (s : string) : NativeApplicationDescriptor :=
  match split_at ":" s with
  | [n] => mkDescriptor n "" ""
  | [n; p] => mkDescriptor n p ""
  | n :: p :: v :: _ => mkDescriptor n p v
  | [] => mkDescriptor "" "" ""
  end.

(** Whether [s] ends with the character [c]. *)
Fixpoint ends_with (c : ascii) (s : string) : bool :=
  match s with
  | EmptyString => false
  | String x EmptyString => Ascii.eqb x c
  | String _ r => ends_with c r
  end.

(** [path.join(a, b)] (POSIX) for a directory [a] in normal form, as
    [process.cwd()] returns it, and a plain segment [b]: no separator is
    added after the root [/], and an empty [a] gives [b]. *)
Definition path_join (a b : string) : string :=
  if String.eqb a "" then b
  else if ends_with "/" a then a +:+ b
  else a +:+ "/" +:+ b.
Arguments path_join : simpl never.

(** [_.map(array, f)] on an array that may be [undefined]. *)
Definition lodash_map_opt {A B : Type} (l : option (list A)) (f : A -> B) : list B :=
  match l with
  | Some xs => map f xs
  | None => []
  end.

(** [array && array.length > n]. *)
Definition longer_than (n : nat) (l : option (list string)) : bool :=
  match l with
  | Some xs => Nat.ltb n (length xs)
  | None => false
  end.

(** Lines 489-515. *)
Definition generateContainerForRunner (platform : string)
  (napDescriptor : option NativeApplicationDescriptor)
  (dependenciesObjs : list Dependency) (miniAppsPaths : list DependencyPath)
  : prog unit :=
  match napDescriptor with
  | Some d =>
      generation <- call (runCauldronContainerGen d (Some "1.0.0")
                            (mkGenOptions false (Some "runner"))) ;;
      await generation
  | None =>
      generation <- call (runLocalContainerGen miniAppsPaths platform
                            "1.0.0" "runner" dependenciesObjs) ;;
      spin "Generating Container locally" generation
  end.

(** Lines 517-522. *)
Definition launchAndroidRunner (pathToAndroidRunner : string) : prog unit :=
  launched <- call (runAndroidProject pathToAndroidRunner "com.walmartlabs.ern") ;;
  await launched.

(** Lines 546-566: the promise settles with the exit code of [xcodebuild]. *)
Definition buildIosRunner (pathToIosRunner deviceName : string) : prog unit :=
  built <- call (xcodebuild pathToIosRunner deviceName) ;;
  await built.

(** Lines 524-544. *)
Definition launchIosRunner (pathToIosRunner : string) : prog unit :=
  chosen <- call ios_askUserToSelectAniPhoneDevice ;;
  iPhoneDevice <- await chosen ;;
  killed <- call ios_killAllRunningSimulators ;;
  await killed ;;
  tell (ora_start "Waiting for device to boot") ;;
  booted <- call (ios_launchSimulator (udid iPhoneDevice)) ;;
  await booted ;;
  invoke (shell_cd pathToIosRunner) ;;
  try_catch
    (tell (spinner_text "Building iOS Runner project") ;;
     buildIosRunner pathToIosRunner (device_name iPhoneDevice) ;;
     tell (spinner_text "Installing runner project on device") ;;
     installed <- call (ios_installApplicationOnDevice (udid iPhoneDevice)
                          (pathToIosRunner
                           +:+ "/build/Debug-iphonesimulator/ErnRunner.app")) ;;
     await installed ;;
     tell (spinner_text "Launching runner project") ;;
     launched <- call (ios_launchApplication (udid iPhoneDevice)
                         "com.yourcompany.ernrunner") ;;
     await launched ;;
     tell (spinner_succeed "Done"))
    (fun e =>
       tell (spinner_fail (err_message e)) ;;
       Throw e).

(** Lines 405-432: the entry MiniApp name, the native dependencies, the
    MiniApp paths and the value of [dev] after the block. *)
Definition runMiniApp_sources (cwd : string) (o : RunMiniAppOptions)
  : prog (string * list Dependency * list DependencyPath * option bool) :=
  let entryMiniAppName :=
    if truthy (mainMiniAppName o) then default "" (mainMiniAppName o) else "" in
  match miniapps o with
  | Some ms =>
      found <-
        (inPath <- invoke (MiniApp_existInPath cwd) ;;
         if inPath then
           miniapp <- invoke (MiniApp_fromPath cwd) ;;
           tell (log_debug ("This command is being run from the "
                            +:+ miniapp_name miniapp +:+ " MiniApp directory.")) ;;
           tell (log_info ("All extra MiniApps will be included in the Runner container along with "
                           +:+ miniapp_name miniapp)) ;;
           entryMiniAppName <-
             (if negb (truthy (mainMiniAppName o)) then
                tell (log_info (miniapp_name miniapp
                                +:+ " will be set as the main MiniApp")) ;;
                tell (log_info "You can select another one instead through '--mainMiniAppName' option") ;;
                Ret (miniapp_name miniapp)
              else Ret entryMiniAppName) ;;
           Ret (entryMiniAppName, [DependencyPath_fromFileSystemPath cwd])
         else Ret (entryMiniAppName, [])) ;;
      let '(entryMiniAppName, miniAppsPaths) := found in
      Ret (entryMiniAppName,
           lodash_map_opt (dependencies o) Dependency_fromString,
           miniAppsPaths ++ map DependencyPath_fromString ms,
           dev o)
  | None =>
      if negb (truthy (descriptor o)) then
        miniapp <- invoke MiniApp_fromCurrentPath ;;
        tell (log_debug ("This command is being run from the "
                         +:+ miniapp_name miniapp +:+ " MiniApp directory.")) ;;
        tell (log_debug "Initializing Runner") ;;
        dev' <-
          match dev o with
          | None =>
              started <- call (reactnative_startPackagerInNewWindow cwd) ;;
              await started ;;
              Ret (Some true)
          | Some b => Ret (Some b)
          end ;;
        Ret (miniapp_name miniapp,
             lodash_map_opt (dependencies o) Dependency_fromString,
             [DependencyPath_fromFileSystemPath cwd],
             dev')
      else Ret (entryMiniAppName, [], [], dev o)
  end.

(** Lines 434-486. *)
Definition runMiniApp_launch (cwd platform : string)
  (napDescriptor : option NativeApplicationDescriptor)
  (entryMiniAppName : string) (dependenciesObjs : list Dependency)
  (miniAppsPaths : list DependencyPath) (dev : option bool) : prog unit :=
  if String.eqb platform "android" then
    generateContainerForRunner platform napDescriptor dependenciesObjs
      miniAppsPaths ;;
    let pathToAndroidRunner := path_join cwd platform in
    present <- invoke (fs_existsSync pathToAndroidRunner) ;;
    (if negb present then
       invoke (shell_mkdir pathToAndroidRunner) ;;
       generated <- call (generateAndroidRunnerProject pathToAndroidRunner
                            entryMiniAppName dev) ;;
       spin "Generating Android Runner project" generated
     else
       regenerated <- call (regenerateAndroidRunnerConfig pathToAndroidRunner
                              entryMiniAppName dev) ;;
       spin "Regenerating Android Runner Configuration" regenerated) ;;
    launchAndroidRunner pathToAndroidRunner
  else if String.eqb platform "ios" then
    generateContainerForRunner platform napDescriptor dependenciesObjs
      miniAppsPaths ;;
    let pathToIosRunner := path_join cwd platform in
    present <- invoke (fs_existsSync pathToIosRunner) ;;
    (if negb present then
       invoke (shell_mkdir pathToIosRunner) ;;
       generated <- call (generateIosRunnerProject pathToIosRunner
                            entryMiniAppName dev) ;;
       spin "Generating iOS Runner project" generated
     else
       regenerated <- call (regenerateIosRunnerConfig pathToIosRunner
                              entryMiniAppName dev) ;;
       spin "Regenerating iOS Runner Configuration" regenerated) ;;
    launchIosRunner pathToIosRunner
  else Throw (new_Error ("Unsupported platform : " +:+ platform)).

(** Lines 360-403: the current directory, the four tests of the inputs
    and the check of the descriptor; then the two blocks above. *)
Definition runMiniApp (platform : string) (o : RunMiniAppOptions) : prog unit :=
  cwd <- invoke process_cwd ;;
  if longer_than 1 (miniapps o) && negb (truthy (mainMiniAppName o)) then
    Throw (new_Error "If you provide multiple MiniApps you need to provide the name of the MiniApp to launch")
  else if longer_than 1 (miniapps o) && flag (dev o) then
    Throw (new_Error "You cannot enable development mode yet when running multiple MiniApps")
  else if longer_than 0 (dependencies o) && truthy (descriptor o) then
    Throw (new_Error "You cannot pass extra native dependencies when using a Native Application Descriptor")
  else if bool_decide (is_Some (miniapps o)) && truthy (descriptor o) then
    Throw (new_Error "You cannot use miniapps and descriptor at the same time")
  else
    napDescriptor <-
      (if truthy (descriptor o) then
         let descriptor := default "" (descriptor o) in
         logErrorAndExitIfNotSatisfied
           {| noGitOrFilesystemPath := None;
              isValidContainerVersion := None;
              isNewerContainerVersion := None;
              isCompleteNapDescriptorString := Some (mkDescriptorArg descriptor None);
              napDescriptorExistInCauldron :=
                Some (mkDescriptorArg descriptor
                        (Some "You cannot create a Runner for a non existing native application version."));
              napDescritorDoesNotExistsInCauldron := None;
              publishedToNpm := None;
              miniAppNotInNativeApplicationVersionContainer := None;
              miniAppIsInNativeApplicationVersionContainer := None;
              miniAppIsInNativeApplicationVersionContainerWithDifferentVersion := None;
              dependencyNotInNativeApplicationVersionContainer := None;
              dependencyIsInNativeApplicationVersionContainer := None;
              dependencyIsInNativeApplicationVersionContainerWithDifferentVersion := None;
              dependencyNotInUseByAMiniApp := None;
              cauldronIsActive := None |} ;;
         Ret (Some (nap_fromString descriptor))
       else Ret None) ;;
    sources <- runMiniApp_sources cwd o ;;
    let '(entryMiniAppName, dependenciesObjs, miniAppsPaths, dev) := sources in
    runMiniApp_launch cwd platform napDescriptor entryMiniAppName
      dependenciesObjs miniAppsPaths dev.

(** ** The precondition checker as the spec words it *)

(** A present key as a list of at most one check. *)
Definition present {A : Type} (key : option A) (text : string)
  (check : A -> EnsureCall) : list (string * EnsureCall) :=
  match key with
  | Some a => [(text, check a)]
  | None => []
  end.

(** The checks of the present keys with their status lines, in the fixed
    order in which [logErrorAndExitIfNotSatisfied] tests the keys. *)
Definition checks_in_order (p : Preconditions) : list (string * EnsureCall) :=
  present (cauldronIsActive p)
    "Ensuring that a Cauldron is active"
    (fun a => Ensure_cauldronIsActive (eo_extraErrorMessage a))
  ++ present (isValidContainerVersion p)
    "Ensuring that container version is valid"
    (fun a => Ensure_isValidContainerVersion
       (cv_containerVersion a) (cv_extraErrorMessage a))
  ++ present (isNewerContainerVersion p)
    "Ensuring that container version is newer compared to the current one"
    (fun a => Ensure_isNewerContainerVersion
       (nv_descriptor a) (nv_containerVersion a) (nv_extraErrorMessage a))
  ++ present (isCompleteNapDescriptorString p)
    "Ensuring that native application descriptor is complete"
    (fun a => Ensure_isCompleteNapDescriptorString
       (da_descriptor a) (da_extraErrorMessage a))
  ++ present (noGitOrFilesystemPath p)
    "Ensuring that not git or file system path(s) is/are used"
    (fun a => Ensure_noGitOrFilesystemPath (oa_obj a) (oa_extraErrorMessage a))
  ++ present (napDescriptorExistInCauldron p)
    "Ensuring that native application descriptor exists in Cauldron"
    (fun a => Ensure_napDescritorExistsInCauldron
       (da_descriptor a) (da_extraErrorMessage a))
  ++ present (napDescritorDoesNotExistsInCauldron p)
    "Ensuring that native application descriptor does not already exist in Cauldron"
    (fun a => Ensure_napDescritorDoesNotExistsInCauldron
       (da_descriptor a) (da_extraErrorMessage a))
  ++ present (publishedToNpm p)
    "Ensuring that package(s) version(s) have been published to NPM"
    (fun a => Ensure_publishedToNpm (oa_obj a) (oa_extraErrorMessage a))
  ++ present (miniAppNotInNativeApplicationVersionContainer p)
    "Ensuring that MiniApp(s) is/are not present in native application version container"
    (fun a => Ensure_miniAppNotInNativeApplicationVersionContainer
       (ma_miniApp a) (ma_napDescriptor a) (ma_extraErrorMessage a))
  ++ present (miniAppIsInNativeApplicationVersionContainer p)
    "Ensuring that MiniApp(s) is/are present in native application version container"
    (fun a => Ensure_miniAppIsInNativeApplicationVersionContainer
       (ma_miniApp a) (ma_napDescriptor a) (ma_extraErrorMessage a))
  ++ present (miniAppIsInNativeApplicationVersionContainerWithDifferentVersion p)
    "Ensuring that MiniApp(s) is/are present in native application version container with different version(s)"
    (fun a => Ensure_miniAppIsInNativeApplicationVersionContainerWithDifferentVersion
       (ma_miniApp a) (ma_napDescriptor a) (ma_extraErrorMessage a))
  ++ present (dependencyNotInNativeApplicationVersionContainer p)
    "Ensuring that dependency(ies) is/are not present in native application version container"
    (fun a => Ensure_dependencyNotInNativeApplicationVersionContainer
       (dp_dependency a) (dp_napDescriptor a) (dp_extraErrorMessage a))
  ++ present (dependencyIsInNativeApplicationVersionContainer p)
    "Ensuring that dependency(ies) is/are present in native application version container"
    (fun a => Ensure_dependencyIsInNativeApplicationVersionContainer
       (dp_dependency a) (dp_napDescriptor a) (dp_extraErrorMessage a))
  ++ present (dependencyIsInNativeApplicationVersionContainerWithDifferentVersion p)
    "Ensuring that dependency(ies) is/are present in native application version container with different version(s)"
    (fun a => Ensure_dependencyIsInNativeApplicationVersionContainerWithDifferentVersion
       (dp_dependency a) (dp_napDescriptor a) (dp_extraErrorMessage a))
  ++ present (dependencyNotInUseByAMiniApp p)
    "Ensuring that no MiniApp(s) is/are using a dependency"
    (fun a => Ensure_dependencyNotInUseByAMiniApp
       (dp_dependency a) (dp_napDescriptor a) (dp_extraErrorMessage a))
  ++ [].

(** The checks of a list, one after the other, then [rest]: each one
    writes its status line and runs; a check that throws ends the list. *)
Fixpoint checks_then (l : list (string * EnsureCall)) (rest : prog unit)
  : prog unit :=
  match l with
  | [] => rest
  | (text, check) :: l' =>
      tell (spinner_text text) ;;
      invoke (Ensure check) ;;
      checks_then l' rest
  end.

(** What follows the last check. *)
Definition all_passed : prog unit :=
  tell (spinner_succeed "All initial checks have passed").

(** What follows a check that throws [e]. *)
Definition on_failure (e : JsError) : prog unit :=
  tell (spinner_fail (err_message e)) ;;
  exit 1.

(** The checker of the spec, over an ordered list of checks: the first
    failing check aborts the remaining ones, the failure is reported and
    the process terminates with status 1. *)
Definition checkPreconditions (l : list (string * EnsureCall)) : prog unit :=
  tell (ora_start "Performing initial checks") ;;
  try_catch (checks_then l all_passed) on_failure.

(** The trace of a check that passed. *)
Definition passed (tc : string * EnsureCall) : EnsureCall * option JsError :=
  (snd tc, None).

(** The calls to [Ensure] in a trace, each with the error it failed with. *)
Definition ensure_call (x : ext * option JsError)
  : option (EnsureCall * option JsError) :=
  match x with
  | (Ensure c, r) => Some (c, r)
  | _ => None
  end.

Definition ensure_calls (tr : list (ext * option JsError))
  : list (EnsureCall * option JsError) :=
  omap ensure_call tr.

(** ** The inputs that runMiniApp rejects *)

(** The inconsistent combinations of inputs: more than one MiniApp without
    the name of the main one, more than one MiniApp in development mode,
    native dependencies together with a descriptor, MiniApps together with
    a descriptor.  A name or a descriptor is a non-empty string. *)
Definition inconsistent_inputs (o : RunMiniAppOptions) : Prop :=
  (exists ms, miniapps o = Some ms /\ 1 < length ms
              /\ (mainMiniAppName o = None \/ mainMiniAppName o = Some ""))
  \/ (exists ms, miniapps o = Some ms /\ 1 < length ms /\ dev o = Some true)
  \/ (exists ds by_descriptor,
        dependencies o = Some ds /\ ds <> []
        /\ descriptor o = Some by_descriptor /\ by_descriptor <> "")
  \/ (exists ms by_descriptor,
        miniapps o = Some ms
        /\ descriptor o = Some by_descriptor /\ by_descriptor <> "").

(** ** Values that are not arrays *)

Definition is_leaf (v : jsval) : Prop :=
  match v with
  | JArr _ => False
  | _ => True
  end.

(** ** Observations on the traces of a state update *)

#[global] Instance JsError_eq_dec : EqDecision JsError.
Proof. solve_decision. Defined.
#[global] Instance NativeApplicationDescriptor_eq_dec :
  EqDecision NativeApplicationDescriptor.
Proof. solve_decision. Defined.
#[global] Instance GenOptions_eq_dec : EqDecision GenOptions.
Proof. solve_decision. Defined.
#[global] Instance StringOrArray_eq_dec : EqDecision StringOrArray.
Proof. solve_decision. Defined.
#[global] Instance EnsureCall_eq_dec : EqDecision EnsureCall.
Proof. solve_decision. Defined.
#[global] Instance DependencyPath_eq_dec : EqDecision DependencyPath.
Proof. solve_decision. Defined.
#[global] Instance Dependency_eq_dec : EqDecision Dependency.
Proof. solve_decision. Defined.
#[global] Instance ext_eq_dec : EqDecision ext.
Proof. solve_decision. Defined.

(** The steps of a state update, in the order of the source, for a
    selected container version [v]; [publish] is enabled. *)
Definition update_steps (d : NativeApplicationDescriptor) (v : option string)
  : list ext :=
  [ cauldron_beginTransaction;
    stateUpdateFunc;
    runCauldronContainerGen d v (mkGenOptions true None);
    cauldron_updateContainerVersion d v;
    cauldron_commitTransaction ].

(** The read of version selection, made when no container version is given. *)
Definition selection_steps (d : NativeApplicationDescriptor)
  (containerVersion : option string) : list ext :=
  if truthy containerVersion then []
  else [cauldron_getTopLevelContainerVersion d].

Definition is_step (c : ext) : bool :=
  match c with
  | cauldron_getTopLevelContainerVersion _
  | cauldron_beginTransaction
  | stateUpdateFunc
  | runCauldronContainerGen _ _ _
  | cauldron_updateContainerVersion _ _
  | cauldron_commitTransaction => true
  | _ => false
  end.

(** The steps 2 to 6 of the update: the ones inside the [try] block. *)
Definition is_update_step (c : ext) : bool :=
  match c with
  | cauldron_beginTransaction
  | stateUpdateFunc
  | runCauldronContainerGen _ _ _
  | cauldron_updateContainerVersion _ _
  | cauldron_commitTransaction => true
  | _ => false
  end.

(** The steps that a trace shows, in order. *)
Definition steps (tr : list (ext * option JsError)) : list ext :=
  List.filter is_step (map fst tr).

(** The calls that can change the version pointer that readers see. *)
Definition writes_pointer (c : ext) : bool :=
  match c with
  | cauldron_updateContainerVersion _ _
  | cauldron_commitTransaction => true
  | _ => false
  end.

(** Every call of [tr] that writes the version pointer or commits comes
    after the entry [g]; [seen] tells whether [g] came before [tr]. *)
Fixpoint preceded_by (g : ext * option JsError) (seen : bool)
  (tr : list (ext * option JsError)) : bool :=
  match tr with
  | [] => true
  | x :: r =>
      (if writes_pointer (fst x) then seen else true)
      && preceded_by g (seen || bool_decide (x = g)) r
  end.

(** The container version that an invocation selects, in the environment
    [h] from the state [w]; [None] is [null]. *)
Definition selected `{SemverApi} {W : Type} (h : handler W) (w : W)
  (d : NativeApplicationDescriptor) (containerVersion : option string)
  : option string :=
  match outcome (run h (selectContainerVersion d containerVersion) w) with
  | Returned v => v
  | _ => None
  end.

(** The steps that come after the transaction is opened. *)
Definition is_later_step (c : ext) : bool :=
  match c with
  | stateUpdateFunc
  | runCauldronContainerGen _ _ _
  | cauldron_updateContainerVersion _ _
  | cauldron_commitTransaction => true
  | _ => false
  end.

Definition is_version_read (c : ext) : bool :=
  match c with
  | cauldron_getTopLevelContainerVersion _ => true
  | _ => false
  end.

(** An error named [StateStoreUnavailable]. *)
Definition is_StateStoreUnavailable (e : JsError) : bool :=
  String.eqb (err_name e) "StateStoreUnavailable".

(** ** A reference instance of [semver.inc] *)

Module NodeSemver.

Definition is_digit (c : ascii) : bool :=
  let n := nat_of_ascii c in Nat.leb 48 n && Nat.leb n 57.

Definition is_letter (c : ascii) : bool :=
  let n := nat_of_ascii c in
  (Nat.leb 65 n && Nat.leb n 90) || (Nat.leb 97 n && Nat.leb n 122).

(** A character of an identifier: [[0-9A-Za-z-]]. *)
Definition is_identifier_char (c : ascii) : bool :=
  is_digit c || is_letter c || Ascii.eqb c "-".

Fixpoint all_chars (P : ascii -> bool) (s : string) : bool :=
  match s with
  | EmptyString => true
  | String c r => P c && all_chars P r
  end.

(** A numeric identifier, [0|[1-9]\d*], and its value. *)
Definition numeric_identifier (s : string) : option N :=
  match s with
  | EmptyString => None
  | String c r =>
      if all_chars is_digit s && (String.eqb s "0" || negb (Ascii.eqb c "0"))
      then N.of_uint <$> NilEmpty.uint_of_string s
      else None
  end.

(** An identifier of a prerelease tag: numeric, or alphanumeric with at
    least one character that is not a digit. *)
Definition prerelease_identifier (s : string) : bool :=
  negb (String.eqb s "") && all_chars is_identifier_char s
  && (negb (all_chars is_digit s) || bool_decide (is_Some (numeric_identifier s))).

Definition build_identifier (s : string) : bool :=
  negb (String.eqb s "") && all_chars is_identifier_char s.

(** The part of [s] before the first [sep], and the part after it when
    there is one. *)
Fixpoint split_first (sep : ascii) (s : string) : string * option string :=
  match s with
  | EmptyString => ("", None)
  | String c r =>
      if Ascii.eqb c sep then ("", Some r)
      else let (before, after) := split_first sep r in (String c before, after)
  end.

Definition tag_ok (P : string -> bool) (tag : option string) : bool :=
  match tag with
  | Some t => forallb P (split_at "." t)
  | None => true
  end.

Record SemVer := mkSemVer {
  major : N;
  minor : N;
  patch : N;
  prerelease : option string
}.

(** The white space that [String.prototype.trim] removes, among the
    characters of one byte. *)
Definition is_space (c : ascii) : bool :=
  let n := nat_of_ascii c in
  (Nat.leb 9 n && Nat.leb n 13) || Nat.eqb n 32.

Fixpoint trim_start (s : string) : string :=
  match s with
  | String c r => if is_space c then trim_start r else s
  | EmptyString => s
  end.

Definition reverse (s : string) : string :=
  string_of_list_ascii (rev (list_ascii_of_string s)).

(** [version.trim()]. *)
Definition trim (s : string) : string :=
  reverse (trim_start (reverse (trim_start s))).

(** The optional [v] before a version. *)
Definition without_v (s : string) : string :=
  match s with
  | String "v" r => r
  | _ => s
  end.

(** [MAX_LENGTH] and [Number.MAX_SAFE_INTEGER]. *)
Definition MAX_LENGTH : nat := 256.
Definition MAX_SAFE_INTEGER : N := 9007199254740991.

(** A version [MAJOR.MINOR.PATCH], with an optional [v] before it, an
    optional [-prerelease] tag and optional [+build] metadata, white space
    around it left out; a version of more than [MAX_LENGTH] characters or
    with a number above [MAX_SAFE_INTEGER] is invalid. *)
Definition parse (version : string) : option SemVer :=
  if Nat.ltb MAX_LENGTH (String.length version) then None
  else
    let (main_pre, build) := split_first "+" (without_v (trim version)) in
    let (main, pre) := split_first "-" main_pre in
    match split_at "." main with
    | [a; b; c] =>
        match numeric_identifier a, numeric_identifier b, numeric_identifier c with
        | Some x, Some y, Some z =>
            if tag_ok prerelease_identifier pre && tag_ok build_identifier build
               && (x <=? MAX_SAFE_INTEGER)%N && (y <=? MAX_SAFE_INTEGER)%N
               && (z <=? MAX_SAFE_INTEGER)%N
            then Some (mkSemVer x y z pre)
            else None
        | _, _, _ => None
        end
    | _ => None
    end.

Definition show (n : N) : string := NilEmpty.string_of_uint (N.to_uint n).

(** [semver.inc(version, 'patch')]: a release has its patch number
    incremented; a prerelease is bumped to the release it precedes; the
    result carries neither tag nor metadata; an invalid version gives
    [null].  Only the [patch] release, in strict mode, is covered. *)
Definition inc (version release : string) : option string :=
  if String.eqb release "patch" then
    match parse version with
    | Some v =>
        let p := match prerelease v with
                 | None => (patch v + 1)%N
                 | Some _ => patch v
                 end in
        Some (show (major v) +:+ "." +:+ show (minor v) +:+ "." +:+ show p)
    | None => None
    end
  else None.

#[export] Instance api : SemverApi := {| semver_inc := inc |}.

End NodeSemver.

(** ** A model of the state store *)

(** Modelled from the spec: the Cauldron client (ern-core), which is not
    part of [utils.js].  The store records the top-level container version
    of every descriptor and the manifest that the state updates change.  A
    transaction works on a copy: what is read and written between [begin]
    and [commit] is invisible to other readers until [commit] and dropped
    by [discard]; at most one transaction is open; opening fails when one
    is open already or when the store cannot be reached; committing fails
    when none is open; discarding does not fail.  The theorems below hold
    in every environment; this one gives them concrete instances. *)
Module CauldronModel.

Record Contents := mkContents {
  containerVersions : gmap string string;
  manifest : gmap string (list string)
}.

Record Cauldron := mkCauldron {
  visible : Contents;
  transaction : option Contents;
  reachable : bool;
  publishedContainers : list (string * option string);
  nativeApps : list NativeApp
}.

(** The collaborators that are not the store: the state update of the
    caller, which changes the manifest, and the container generator. *)
Record Collaborators := mkCollaborators {
  callback : gmap string (list string) -> settled unit * gmap string (list string);
  generator : NativeApplicationDescriptor -> option string -> GenOptions
              -> settled unit
}.

(** What the process reads and writes: the copy of its transaction when
    one is open, the visible contents otherwise. *)
Definition current (w : Cauldron) : Contents :=
  default (visible w) (transaction w).

Definition set_current (w : Cauldron) (c : Contents) : Cauldron :=
  match transaction w with
  | Some _ => mkCauldron (visible w) (Some c) (reachable w) (publishedContainers w)
                (nativeApps w)
  | None => mkCauldron c None (reachable w) (publishedContainers w) (nativeApps w)
  end.

Definition write_version (key : string) (v : option string)
  (m : gmap string string) : gmap string string :=
  match v with
  | Some s => <[key := s]> m
  | None => delete key m
  end.

(** Modelled from the spec: the answers of the Cauldron client (ern-core)
    to [getAllNativeApps], [getTopLevelContainerVersion],
    [beginTransaction], [updateContainerVersion], [commitTransaction] and
    [discardTransaction], as the spec's sections 3 and 6 describe them.
    The other calls are answered so that programs can be run:
    [Ensure.cauldronIsActive] fails when the store cannot be reached and
    the other checks pass; the logger, the spinners and [process.exit]
    return; what is not needed is not available. *)
Definition answer (env : Collaborators) : handler Cauldron :=
  fun c =>
    match c as c0 return Cauldron -> settled (ret_type c0) * Cauldron with
    | cauldron_getAllNativeApps => fun w => (Resolved (nativeApps w), w)
    | cauldron_getTopLevelContainerVersion d => fun w =>
        (Resolved (containerVersions (current w) !! nap_toString d), w)
    | cauldron_beginTransaction => fun w =>
        if negb (reachable w)
        then (Rejected (new_Error "Cauldron is not reachable"), w)
        else match transaction w with
             | Some _ => (Rejected (new_Error "A transaction is already pending"), w)
             | None =>
                 (Resolved tt,
                  mkCauldron (visible w) (Some (visible w)) (reachable w)
                    (publishedContainers w) (nativeApps w))
             end
    | cauldron_updateContainerVersion d v => fun w =>
        (Resolved tt,
         set_current w
           (mkContents
              (write_version (nap_toString d) v (containerVersions (current w)))
              (manifest (current w))))
    | cauldron_commitTransaction => fun w =>
        match transaction w with
        | Some c =>
            (Resolved tt,
             mkCauldron c None (reachable w) (publishedContainers w)
               (nativeApps w))
        | None => (Rejected (new_Error "No pending transaction"), w)
        end
    | cauldron_discardTransaction => fun w =>
        (Resolved tt,
         mkCauldron (visible w) None (reachable w) (publishedContainers w)
           (nativeApps w))
    | stateUpdateFunc => fun w =>
        let (a, m) := callback env (manifest (current w)) in
        (a, set_current w (mkContents (containerVersions (current w)) m))
    | runCauldronContainerGen d v o => fun w =>
        match generator env d v o with
        | Resolved _ =>
            (Resolved tt,
             if publish o
             then mkCauldron (visible w) (transaction w) (reachable w)
                    (publishedContainers w ++ [(nap_toString d, v)])
                    (nativeApps w)
             else w)
        | Rejected e => (Rejected e, w)
        end
    | Ensure check => fun w =>
        (match check with
         | Ensure_cauldronIsActive _ =>
             if reachable w then Resolved tt
             else Rejected (new_Error "There is no active Cauldron")
         | _ => Resolved tt
         end, w)
    | process_cwd => fun w => (Resolved "/home/dev/MyMiniApp", w)
    | log_error _ | log_debug _ | log_info _ | spin_start _
    | ora_start _ | spinner_text _ | spinner_succeed _ | spinner_fail _
    | process_exit _ => fun w =>
        (Resolved tt, w)
    | _ => fun w => (Rejected (new_Error "not available"), w)
    end.

(** The same environment, in which discarding the transaction fails. *)
Definition failing_discard (env : Collaborators) : handler Cauldron :=
  fun c =>
    match c as c0 return Cauldron -> settled (ret_type c0) * Cauldron with
    | cauldron_discardTransaction => fun w =>
        (Rejected (new_Error "Could not discard the transaction"), w)
    | c0 => answer env c0
    end.

(** The version pointer that readers of the store see for [d]. *)
Definition pointer (d : NativeApplicationDescriptor) (w : Cauldron)
  : option string :=
  containerVersions (visible w) !! nap_toString d.

(** The store of the spec's scenarios: [MyApp:android:1.0.0] has the
    container version [2.1.0]; no transaction is open. *)
Definition myApp : NativeApplicationDescriptor :=
  mkDescriptor "MyApp" "android" "1.0.0".

Definition scenario : Cauldron :=
  mkCauldron (mkContents {[ "MyApp:android:1.0.0" := "2.1.0" ]} ∅) None true []
    [mkNativeApp "MyApp"
       [mkPlatform "android" [mkVersion "1.0.0" true; mkVersion "1.1.0" false]]].

(** The same store when it cannot be reached. *)
Definition unreachable : Cauldron :=
  mkCauldron (visible scenario) None false [] (nativeApps scenario).

(** A no-op state update and a generator that always succeed. *)
Definition succeeding : Collaborators :=
  mkCollaborators (fun m => (Resolved tt, m)) (fun _ _ _ => Resolved tt).

(** The same, with a generator that throws. *)
Definition failing_generator : Collaborators :=
  mkCollaborators (fun m => (Resolved tt, m))
    (fun _ _ _ => Rejected (new_Error "Container generation failed")).

(** A state update that changes the manifest and then throws. *)
Definition failing_callback : Collaborators :=
  mkCollaborators
    (fun m => (Rejected (new_Error "MiniApp not found"),
               <[ "MyApp:android:1.0.0" := ["miniapp@1.0.0"] ]> m))
    (fun _ _ _ => Resolved tt).

(** The preconditions of the spec's ordering scenario: the keys
    [cauldronIsActive] and [isCompleteNapDescriptorString]. *)
Definition active_and_complete : Preconditions :=
  {| noGitOrFilesystemPath := None;
     isValidContainerVersion := None;
     isNewerContainerVersion := None;
     isCompleteNapDescriptorString :=
       Some (mkDescriptorArg "MyApp:android:1.0.0" None);
     napDescriptorExistInCauldron := None;
     napDescritorDoesNotExistsInCauldron := None;
     publishedToNpm := None;
     miniAppNotInNativeApplicationVersionContainer := None;
     miniAppIsInNativeApplicationVersionContainer := None;
     miniAppIsInNativeApplicationVersionContainerWithDifferentVersion := None;
     dependencyNotInNativeApplicationVersionContainer := None;
     dependencyIsInNativeApplicationVersionContainer := None;
     dependencyIsInNativeApplicationVersionContainerWithDifferentVersion := None;
     dependencyNotInUseByAMiniApp := None;
     cauldronIsActive := Some (mkExtraOnly None) |}.

(** Two MiniApps and no name of the main one. *)
Definition two_miniapps : RunMiniAppOptions :=
  mkRunMiniAppOptions None (Some ["first-miniapp"; "second-miniapp"]) None None None.

(** Released versions only and non-released versions only, at once. *)
Definition both_filters : NapFilter :=
  mkNapFilter None (Some true) (Some true).

End CauldronModel.


(** ** askUserToChooseANapDescriptorFromCauldron and doesPackageExistInNpm
       (utils.js, lines 273-296 and 568-579) *)

(** A question of [inquirer.prompt]. *)
Record Question := mkQuestion {
  q_type : string;
  q_name : string;
  q_message : string;
  q_choices : option jsval;
  q_default : option bool
}.

(** What the user answered to one question. *)
Inductive AnswerValue :=
| AnswerStr (s : string)
| AnswerBool (b : bool).

(** The object that [inquirer.prompt] resolves to: the answers by the name
    of their question. *)
Definition Answers := list (string * AnswerValue).

(** [answers.name], [undefined] when there is no such answer. *)
Fixpoint answer_of (name : string) (answers : Answers) : option AnswerValue :=
  match answers with
  | [] => None
  | (n, v) :: rest => if String.eqb n name then Some v else answer_of name rest
  end.

(** Lines 273-296.  [inquirer.prompt] is a parameter: an asynchronous
    function of the questions. *)
Definition askUserToChooseANapDescriptorFromCauldron
  (inquirer_prompt : list Question -> prog Answers) (o : NapFilter)
  : prog (option AnswerValue) :=
  napDescriptorStrings <- getNapDescriptorStringsFromCauldron o ;;
  answers <- inquirer_prompt
               [mkQuestion "list" "userSelectedCompleteNapDescriptor"
                  "Choose a native application version"
                  (Some napDescriptorStrings) None] ;;
  Ret (answer_of "userSelectedCompleteNapDescriptor" answers).

(** What [yarn.info] resolves to: an object with a [type], or nothing. *)
Record YarnResult := mkYarnResult { result_type : option string }.

(** Lines 568-579.  [yarn.info] is a parameter: an asynchronous function of
    the package path and of the options [field] and [json].  The [try]
    block either returns [true] from the function ([Some true]) or falls
    through ([None]); the [catch] block does nothing. *)
Definition doesPackageExistInNpm
  (yarn_info : DependencyPath -> string -> bool -> prog (option YarnResult))
  (packageName : string) : prog bool :=
  returned <-
    try_catch
      (result <- yarn_info (DependencyPath_fromString packageName) "versions" true ;;
       match result with
       | Some r =>
           if bool_decide (result_type r = Some "inspect")
           then Ret (Some true)
           else Ret None
       | None => Ret None
       end)
      (fun _ => Ret None) ;;
  match returned with
  | Some b => Ret b
  | None => Ret false
  end.

(** ** epilog (utils.js, lines 351-358) *)

(** [command.split(' ')[0]]. *)
Definition first_word (command : string) : string :=
  hd "" (split_at " " command).

(** [_.indexOf(array, value)]: the index of the first element equal to
    [value], [-1] when there is none. *)
Fixpoint lodash_indexOf (array : list string) (value : string) : Z :=
  match array with
  | [] => (-1)%Z
  | x :: rest =>
      if String.eqb x value then 0%Z
      else let i := lodash_indexOf rest value in
           if (i <? 0)%Z then (-1)%Z else (i + 1)%Z
  end.

(** [_.slice(array, start, end)]: a negative index counts from the end of
    the array, an [end] past the array is the length of the array, and the
    slice is empty when [start] is not before [end]. *)
Definition lodash_slice {A : Type} (array : list A) (start end_ : Z) : list A :=
  let length := Z.of_nat (List.length array) in
  let start :=
    if (start <? 0)%Z
    then (if (length <? - start)%Z then 0 else length + start)%Z
    else start in
  let end_ := if (length <? end_)%Z then length else end_ in
  let end_ := if (end_ <? 0)%Z then (end_ + length)%Z else end_ in
  let size := if (end_ <? start)%Z then 0%Z else (end_ - start)%Z in
  firstn (Z.to_nat size) (skipn (Z.to_nat start) array).

(** [array.join(sep)]. *)
Definition join (sep : string) (array : list string) : string :=
  String.concat sep array.

Definition rootUrl : string :=
  "https://electrode.gitbooks.io/electrode-native/content/cli".

(** Lines 351-358.  [chalk.bold] and the array [process.argv] are
    parameters. *)
Definition epilog (chalk_bold : string -> string) (process_argv : list string)
  (command : string) : string :=
  let commandWithoutOptions := first_word command in
  let idx := lodash_indexOf process_argv commandWithoutOptions in
  let commandPath := join "/" (lodash_slice process_argv 2 idx) in
  let commandPath :=
    if negb (String.eqb commandPath "") then "/" +:+ commandPath else "" in
  "More info about this command @ "
  +:+ chalk_bold (rootUrl +:+ commandPath +:+ "/" +:+ commandWithoutOptions
                  +:+ ".html").

(** ** The command that lists the Cauldron repositories (unnamed/part_000) *)

(** [object[key]] on an object given by its own properties, [undefined]
    when it has no such property. *)
Fixpoint property (key : string) (object : list (string * string)) : option string :=
  match object with
  | [] => None
  | (k, v) :: rest => if String.eqb k key then Some v else property key rest
  end.

(** [`${v}`] for a string that may be [undefined]. *)
Definition template_string (v : option string) : string :=
  match v with
  | Some s => s
  | None => "undefined"
  end.

(** [array.forEach(f)]. *)
Fixpoint forEach {A : Type} (array : list A) (f : A -> prog unit) : prog unit :=
  match array with
  | [] => Ret tt
  | x :: rest => f x ;; forEach rest f
  end.

(** [commandHandler] (lines 12-21).  Its parameter is what
    [ernConfig.getValue('cauldronRepositories')] returned: [None] for no
    value, or an object, given by its properties (alias and repository) in
    the order in which [Object.keys] lists them.  [log.info] is called as
    any function is: when it throws, the handler throws. *)
Definition commandHandler (cauldronRepositories : option (list (string * string)))
  : prog unit :=
  match cauldronRepositories with
  | None => Throw (new_Error "No Cauldron repositories have been added yet")
  | Some repositories =>
      invoke (log_info "[Cauldron Repositories]") ;;
      forEach (map fst repositories) (fun alias =>
        invoke (log_info (alias +:+ " -> "
                          +:+ template_string (property alias repositories))))
  end.

(** What the command logs for [repositories]. *)
Definition repository_lines (repositories : list (string * string)) : list ext :=
  log_info "[Cauldron Repositories]"
  :: map (fun entry => log_info (fst entry +:+ " -> " +:+ snd entry)) repositories.

(** ** What a program can call and return *)

(** In an environment whose answers satisfy [given], every call that the
    program makes is one of [P] and every value that it returns is one of
    [Q].  With [Q] empty the program never returns: it throws or ends the
    process. *)
Inductive confined (given : forall c : ext, settled (ret_type c) -> Prop)
  (P : ext -> Prop) {A : Type} (Q : A -> Prop) : prog A -> Prop :=
| confined_Ret (a : A) : Q a -> confined given P Q (Ret a)
| confined_Throw (e : JsError) : confined given P Q (Throw e)
| confined_Exit (code : Z) : confined given P Q (Exit code)
| confined_Vis (c : ext) (k : settled (ret_type c) -> prog A) :
    P c -> (forall a, given c a -> confined given P Q (k a)) ->
    confined given P Q (Vis c k).

(** Nothing is known of the answers. *)
Definition any_answer (c : ext) (a : settled (ret_type c)) : Prop := True.

(** [fs.existsSync] answers [b]: the runner project exists, or not. *)
Definition runner_exists (b : bool) (c : ext) : settled (ret_type c) -> Prop :=
  match c as c0 return settled (ret_type c0) -> Prop with
  | fs_existsSync _ => fun a => a = Resolved b
  | _ => fun _ => True
  end.

(** The check [check] fails whenever it is made. *)
Definition rejects (check : EnsureCall) (c : ext) (a : settled (ret_type c))
  : Prop :=
  c = Ensure check -> rejection a <> None.

(** The two checks that [runMiniApp] asks for a descriptor (lines 392-401). *)
Definition descriptor_checks (descriptor : string) : list EnsureCall :=
  [ Ensure_isCompleteNapDescriptorString descriptor None;
    Ensure_napDescritorExistsInCauldron descriptor
      (Some "You cannot create a Runner for a non existing native application version.") ].

(** The calls of [failing] fail whenever they are made. *)
Definition fails_when (failing : ext -> bool) (c : ext)
  (a : settled (ret_type c)) : Prop :=
  failing c = true -> rejection a <> None.

Definition anything {A : Type} (a : A) : Prop := True.
Definition nothing {A : Type} (a : A) : Prop := False.

(** The calls that change the Cauldron: those of a transaction, the state
    update of a caller, and a container generation that publishes. *)
Definition changes_cauldron (c : ext) : bool :=
  match c with
  | cauldron_beginTransaction
  | cauldron_updateContainerVersion _ _
  | cauldron_commitTransaction
  | cauldron_discardTransaction
  | stateUpdateFunc => true
  | runCauldronContainerGen _ _ o => publish o
  | _ => false
  end.

(** The calls that generate a container or a runner project, or launch
    one. *)
Definition builds_or_launches (c : ext) : bool :=
  match c with
  | runCauldronContainerGen _ _ _
  | runLocalContainerGen _ _ _ _ _
  | shell_mkdir _
  | shell_cd _
  | generateAndroidRunnerProject _ _ _
  | regenerateAndroidRunnerConfig _ _ _
  | generateIosRunnerProject _ _ _
  | regenerateIosRunnerConfig _ _ _
  | runAndroidProject _ _
  | ios_askUserToSelectAniPhoneDevice
  | ios_killAllRunningSimulators
  | ios_launchSimulator _
  | ios_installApplicationOnDevice _ _
  | ios_launchApplication _ _
  | xcodebuild _ _ => true
  | _ => false
  end.

(** The generation of the container of the runner, from the Cauldron or
    locally. *)
Definition is_container_generation (c : ext) : bool :=
  match c with
  | runCauldronContainerGen _ _ _
  | runLocalContainerGen _ _ _ _ _ => true
  | _ => false
  end.

(** The calls that create, configure, build or launch a runner project. *)
Definition touches_runner (c : ext) : bool :=
  match c with
  | shell_mkdir _
  | shell_cd _
  | generateAndroidRunnerProject _ _ _
  | regenerateAndroidRunnerConfig _ _ _
  | generateIosRunnerProject _ _ _
  | regenerateIosRunnerConfig _ _ _
  | runAndroidProject _ _
  | ios_askUserToSelectAniPhoneDevice
  | ios_killAllRunningSimulators
  | ios_launchSimulator _
  | ios_installApplicationOnDevice _ _
  | ios_launchApplication _ _
  | xcodebuild _ _ => true
  | _ => false
  end.

(** What a generation of the runner container is asked, for the inputs of
    [runMiniApp]: from the Cauldron only for the descriptor that was given,
    with version [1.0.0] and without publication; locally only when no
    descriptor was given, for the platform, with the native dependencies
    that were given and with the MiniApps that were given after those of
    the current directory. *)
Definition generates_as_asked (platform : string) (o : RunMiniAppOptions)
  (c : ext) : Prop :=
  match c with
  | runCauldronContainerGen d v options =>
      exists s, descriptor o = Some s /\ s <> ""
                /\ d = nap_fromString s
                /\ v = Some "1.0.0"
                /\ options = mkGenOptions false (Some "runner")
  | runLocalContainerGen miniAppsPaths p v name extraNativeDependencies =>
      truthy (descriptor o) = false
      /\ p = platform /\ v = "1.0.0" /\ name = "runner"
      /\ extraNativeDependencies
         = lodash_map_opt (dependencies o) Dependency_fromString
      /\ exists own,
           miniAppsPaths
           = own ++ lodash_map_opt (miniapps o) DependencyPath_fromString
  | _ => True
  end.

(** What the two blocks of [runMiniApp] hand over to the generation of
    the container. *)
Definition sources_as_asked (o : RunMiniAppOptions)
  (x : string * list Dependency * list DependencyPath * option bool) : Prop :=
  truthy (descriptor o) = false ->
  snd (fst (fst x)) = lodash_map_opt (dependencies o) Dependency_fromString
  /\ exists own,
       snd (fst x) = own ++ lodash_map_opt (miniapps o) DependencyPath_fromString.

Definition descriptor_as_asked (o : RunMiniAppOptions)
  (napDescriptor : option NativeApplicationDescriptor) : Prop :=
  match napDescriptor with
  | Some d => exists s, descriptor o = Some s /\ s <> "" /\ d = nap_fromString s
  | None => truthy (descriptor o) = false
  end.

(** The calls of the precondition checker: its spinner, its checks and
    [process.exit]. *)
Definition is_checker_call (c : ext) : bool :=
  match c with
  | ora_start _ | spinner_text _ | spinner_succeed _ | spinner_fail _
  | Ensure _ | process_exit _ => true
  | _ => false
  end.

(** The calls that create a runner project from scratch. *)
Definition creates_runner_project (c : ext) : bool :=
  match c with
  | shell_mkdir _
  | generateAndroidRunnerProject _ _ _
  | generateIosRunnerProject _ _ _ => true
  | _ => false
  end.

(** The calls that only regenerate the configuration of a runner project. *)
Definition regenerates_runner_config (c : ext) : bool :=
  match c with
  | regenerateAndroidRunnerConfig _ _ _
  | regenerateIosRunnerConfig _ _ _ => true
  | _ => false
  end.

(** The value of [reactNativeDevSupportEnabled] in a call that generates a
    runner project or its configuration. *)
Definition dev_support_of (c : ext) : option (option bool) :=
  match c with
  | generateAndroidRunnerProject _ _ d
  | regenerateAndroidRunnerConfig _ _ d
  | generateIosRunnerProject _ _ d
  | regenerateIosRunnerConfig _ _ d => Some d
  | _ => None
  end.

Definition is_packager_start (c : ext) : bool :=
  match c with
  | reactnative_startPackagerInNewWindow _ => true
  | _ => false
  end.

Definition is_ensure (c : ext) : bool :=
  match c with
  | Ensure _ => true
  | _ => false
  end.

Definition is_spinner_end (c : ext) : bool :=
  match c with
  | spinner_succeed _ | spinner_fail _ => true
  | _ => false
  end.


(** The calls of the [try] block of [launchIosRunner] that can fail. *)
Definition is_ios_guarded_step (c : ext) : bool :=
  match c with
  | xcodebuild _ _
  | ios_installApplicationOnDevice _ _
  | ios_launchApplication _ _ => true
  | _ => false
  end.

(** The calls of [launchIosRunner] made before its [try] block. *)
Definition is_ios_unguarded_step (c : ext) : bool :=
  match c with
  | ios_askUserToSelectAniPhoneDevice
  | ios_killAllRunningSimulators
  | ios_launchSimulator _
  | shell_cd _ => true
  | _ => false
  end.

(** ** The descriptor strings as a list comprehension *)

(** The two tests of lines 65-67 on a version of a platform. *)
Definition passes_filters (o : NapFilter) (p : NativeAppPlatform)
  (version : NativeAppVersion) : bool :=
  (negb (truthy (filter_platform o))
   || bool_decide (filter_platform o = Some (platform_name p)))
  && ((isReleased version && negb (flag (onlyNonReleasedVersions o)))
      || (negb (isReleased version) && negb (flag (onlyReleasedVersions o)))).

Definition descriptor_string (nativeApp : NativeApp) (p : NativeAppPlatform)
  (version : NativeAppVersion) : string :=
  app_name nativeApp +:+ ":" +:+ platform_name p +:+ ":" +:+ version_name version.

(** The strings of the versions that pass the filters, in the order of the
    store. *)
Definition listed (o : NapFilter) (nativeApps : list NativeApp) : list string :=
  flat_map (fun nativeApp =>
    flat_map (fun p =>
      flat_map (fun version =>
        if passes_filters o p version
        then [descriptor_string nativeApp p version]
        else [])
        (versions p))
      (platforms nativeApp))
    nativeApps.

(** ** A workstation *)

(** An environment for running [runMiniApp] and the prompts: the commands
    are run from the directory of the MiniApp [MyMiniApp], no runner
    project exists yet, and every tool succeeds.  The calls of the state
    store are answered by [CauldronModel.answer]. *)
Module Workstation.

Definition iPhone : IPhoneDevice := mkDevice "A1B2-C3D4" "iPhone 7".

Definition answer (runnerExists : bool) : handler CauldronModel.Cauldron :=
  fun c =>
    match c as c0
          return CauldronModel.Cauldron
                 -> settled (ret_type c0) * CauldronModel.Cauldron with
    | MiniApp_existInPath _ => fun w => (Resolved true, w)
    | MiniApp_fromPath _ | MiniApp_fromCurrentPath => fun w =>
        (Resolved (mkMiniApp "MyMiniApp"), w)
    | fs_existsSync _ => fun w => (Resolved runnerExists, w)
    | ios_askUserToSelectAniPhoneDevice => fun w => (Resolved iPhone, w)
    | runLocalContainerGen _ _ _ _ _
    | reactnative_startPackagerInNewWindow _
    | shell_mkdir _ | shell_cd _
    | generateAndroidRunnerProject _ _ _ | regenerateAndroidRunnerConfig _ _ _
    | generateIosRunnerProject _ _ _ | regenerateIosRunnerConfig _ _ _
    | runAndroidProject _ _
    | ios_killAllRunningSimulators | ios_launchSimulator _
    | ios_installApplicationOnDevice _ _ | ios_launchApplication _ _ => fun w =>
        (Resolved tt, w)
    | xcodebuild _ _ => fun w => (Resolved tt, w)
    | c0 => CauldronModel.answer CauldronModel.succeeding c0
    end.

(** The same workstation, on which [xcodebuild] fails. *)
Definition broken_build : handler CauldronModel.Cauldron :=
  fun c =>
    match c as c0
          return CauldronModel.Cauldron
                 -> settled (ret_type c0) * CauldronModel.Cauldron with
    | xcodebuild _ _ => fun w =>
        (Rejected (new_Error "XCode xcbuild command failed with exit code 65"), w)
    | c0 => answer false c0
    end.

(** The same workstation, on which the simulator does not boot. *)
Definition no_simulator : handler CauldronModel.Cauldron :=
  fun c =>
    match c as c0
          return CauldronModel.Cauldron
                 -> settled (ret_type c0) * CauldronModel.Cauldron with
    | ios_launchSimulator _ => fun w =>
        (Rejected (new_Error "Unable to boot device"), w)
    | c0 => answer false c0
    end.

(** The same workstation, on which the descriptor is not in the Cauldron. *)
Definition unknown_descriptor : handler CauldronModel.Cauldron :=
  fun c =>
    match c as c0
          return CauldronModel.Cauldron
                 -> settled (ret_type c0) * CauldronModel.Cauldron with
    | Ensure check => fun w =>
        (match check with
         | Ensure_napDescritorExistsInCauldron _ _ =>
             Rejected (new_Error "MyApp:android:1.0.0 descriptor does not exist in Cauldron")
         | _ => Resolved tt
         end, w)
    | c0 => answer false c0
    end.

(** The same workstation, on which no container can be generated. *)
Definition broken_generator : handler CauldronModel.Cauldron :=
  fun c =>
    match c as c0
          return CauldronModel.Cauldron
                 -> settled (ret_type c0) * CauldronModel.Cauldron with
    | runCauldronContainerGen _ _ _ | runLocalContainerGen _ _ _ _ _ => fun w =>
        (Rejected (new_Error "Container generation failed"), w)
    | c0 => answer false c0
    end.

(** A standalone run: no MiniApps, no descriptor, [dev] not given. *)
Definition standalone : RunMiniAppOptions :=
  mkRunMiniAppOptions None None None None None.

(** A run for a native application version of the store. *)
Definition for_descriptor : RunMiniAppOptions :=
  mkRunMiniAppOptions None None None (Some "MyApp:android:1.0.0") None.

(** A user who picks the first choice, and a registry that knows about
    every package. *)
Definition picks_first (questions : list Question) : prog Answers :=
  Ret (match questions with
       | q :: _ =>
           match q_choices q with
           | Some (JArr (JStr s :: _)) => [(q_name q, AnswerStr s)]
           | _ => []
           end
       | [] => []
       end).

Definition registry_down (path : DependencyPath) (field : string) (json : bool)
  : prog (option YarnResult) :=
  Throw (new_Error "Received invalid response from npm.").

(** The released versions for Android. *)
Definition released_android : NapFilter :=
  mkNapFilter (Some "android") (Some true) None.

(** The repositories of a configuration. *)
Definition repositories : list (string * string) :=
  [("main", "git@github.com:company/cauldron.git");
   ("staging", "git@github.com:company/cauldron-staging.git")].

End Workstation.

(** * Properties *)

(** ** Running programs *)

Section Running.
Context {W : Type} (h : handler W).

Lemma run_bind {A B : Type} (p : prog A) (f : A -> prog B) (w : W) :
  run h (bind p f) w =
  match run h p w with
  | (Returned a, w1, t1) =>
      let '(r, w2, t2) := run h (f a) w1 in (r, w2, t1 ++ t2)
  | (Threw e, w1, t1) => (Threw e, w1, t1)
  | (Exited code, w1, t1) => (Exited code, w1, t1)
  end.
Proof.
  revert w. induction p as [a | e | code | c k IH]; intros w; simpl.
  - destruct (run h (f a) w) as [[r w2] t2]. reflexivity.
  - reflexivity.
  - reflexivity.
  - destruct (h c w) as [a w1]. rewrite IH.
    destruct (run h (k a) w1) as [[[x | e | code] w2] t1]; try reflexivity.
    destruct (run h (f x) w2) as [[r w3] t2]. reflexivity.
Qed.

(** A run whose calls all leave an observation of the environment
    unchanged leaves it unchanged. *)
Lemma frame_run {A O : Type} (obs : W -> O) (touches : ext -> bool)
  (frame : forall c w, touches c = false -> obs (snd (h c w)) = obs w)
  (p : prog A) (w : W) :
  Forall (fun x => touches (fst x) = false) (observed (run h p w)) ->
  obs (final (run h p w)) = obs w.
Proof.
  revert w. induction p as [a | e | code | c k IH]; intros w; simpl; try reflexivity.
  unfold observed, final, calls. simpl.
  specialize (frame c w).
  destruct (h c w) as [a w1]. specialize (IH a w1).
  unfold observed, final, calls in IH.
  destruct (run h (k a) w1) as [[r w2] tr]. simpl in *.
  intros Hall. inversion Hall as [| x l Hc Hrest]; subst.
  rewrite IH by assumption. apply frame. assumption.
Qed.

End Running.

(** ** Lists and traces *)

Lemma cons_suffix {A : Type} (x : A) (l s : list A) :
  (exists pre, l = pre ++ s) -> exists pre, x :: l = pre ++ s.
Proof. intros [pre ->]. exists (x :: pre). reflexivity. Qed.

Lemma cons_suffix_with {A : Type} (P : Prop) (x : A) (l s : list A) :
  (exists pre, P /\ l = pre ++ s) -> exists pre, P /\ x :: l = pre ++ s.
Proof. intros (pre & HP & ->). exists (x :: pre). split; [exact HP | reflexivity]. Qed.

Lemma cons_suffix_then {A : Type} (P : Prop) (x : A) (l s : list A) :
  (exists pre, l = pre ++ s /\ P) -> exists pre, x :: l = pre ++ s /\ P.
Proof. intros (pre & -> & HP). exists (x :: pre). split; [reflexivity | exact HP]. Qed.

Lemma firstn_nth_error {A : Type} (l : list A) (n : nat) (x : A) :
  nth_error l n = Some x -> firstn (S n) l = firstn n l ++ [x].
Proof.
  revert l. induction n as [| n IH]; intros [| y l] Hn; try discriminate.
  - cbn in Hn. inversion Hn. reflexivity.
  - cbn in Hn. cbn. f_equal. apply IH. exact Hn.
Qed.

(** In a list of successes followed by one entry, an entry that failed is
    that last one. *)
Lemma failure_is_last {A : Type} (ok : list (A * option JsError))
  (x y : A * option JsError) (pre post : list (A * option JsError)) :
  Forall (fun z => snd z = None) ok ->
  ok ++ [x] = pre ++ y :: post ->
  snd y <> None ->
  post = [] /\ y = x.
Proof.
  revert pre. induction ok as [| z ok IH]; intros pre Hok Heq Hy.
  - destruct pre as [| p pre]; cbn in Heq.
    + inversion Heq; subst. split; reflexivity.
    + inversion Heq as [[Hp Hrest]]. destruct pre; discriminate.
  - inversion Hok as [| z' ok' Hz Hok']; subst.
    destruct pre as [| p pre]; cbn in Heq; inversion Heq; subst.
    + contradiction.
    + eapply IH; eassumption.
Qed.

Lemma preceded_by_spec (g : ext * option JsError) (seen : bool)
  (tr : list (ext * option JsError)) :
  preceded_by g seen tr = true ->
  forall pre x post, tr = pre ++ x :: post ->
  writes_pointer (fst x) = true -> seen = true \/ In g pre.
Proof.
  revert seen. induction tr as [| y tr IH]; intros seen Hp pre x post Heq Hw.
  - destruct pre; discriminate.
  - cbn in Hp. apply andb_prop in Hp as [Hy Hrest].
    destruct pre as [| z pre]; cbn in Heq; inversion Heq; subst.
    + rewrite Hw in Hy. left. exact Hy.
    + destruct (IH _ Hrest pre x post eq_refl Hw) as [Hseen | Hin].
      * apply orb_prop in Hseen as [-> | Hz]; [left; reflexivity |].
        apply bool_decide_eq_true_1 in Hz. right. left. exact Hz.
      * right. right. exact Hin.
Qed.

Lemma truthy_Some (s : string) : s <> "" -> truthy (Some s) = true.
Proof.
  intros Hs. cbn. destruct (String.eqb_spec s ""); [contradiction | reflexivity].
Qed.

(** Answers the calls of the goal one after the other: the answer of the
    environment [h] to each call, and whether an awaited answer is a
    value or an error. *)
Ltac answer_calls h :=
  repeat first
    [ match goal with
      | |- context [h ?c ?w] =>
          let a := fresh "a" in
          let w' := fresh "w" in
          destruct (h c w) as [a w'] eqn:?; cbn
      end
    | match goal with
      | |- context [await ?a] => destruct a; cbn
      end ].

(** Which entry of a concrete trace a hypothesis [In x trace] speaks of. *)
Ltac in_trace H :=
  cbn in H;
  repeat (destruct H as [H | H];
          [ inversion H; subst; clear H; try discriminate | ]);
  try contradiction.

Ltac split_suffix :=
  first [ exists []; reflexivity | apply cons_suffix; split_suffix ].

Ltac split_suffix_with :=
  first [ exists []; split; reflexivity
        | apply cons_suffix_with; split_suffix_with ].

Ltac split_suffix_then tac :=
  first [ exists []; split; [reflexivity | tac]
        | apply cons_suffix_then; split_suffix_then tac ].

Ltac prefix_upto_6 :=
  first [ exists 0; reflexivity | exists 1; reflexivity
        | exists 2; reflexivity | exists 3; reflexivity
        | exists 4; reflexivity | exists 5; reflexivity
        | exists 6; reflexivity ].

(** ** performContainerStateUpdateInCauldron *)

Section StateUpdate.
Context `{SemverApi} {W : Type} (h : handler W).

(** Version selection makes no call when a container version is given, and
    one read of the store otherwise. *)
Lemma run_selectContainerVersion (d : NativeApplicationDescriptor)
  (cv : option string) (w : W) :
  run h (selectContainerVersion d cv) w =
  if truthy cv then (Returned cv, w, [])
  else
    let (a, w1) := h (cauldron_getTopLevelContainerVersion d) w in
    (match a with
     | Resolved recorded =>
         Returned (if truthy recorded
                   then semver_inc (default "" recorded) "patch"
                   else Some "1.0.0")
     | Rejected e => Threw e
     end, w1, [Entry (cauldron_getTopLevelContainerVersion d) a]).
Proof.
  unfold selectContainerVersion. destruct (truthy cv); [reflexivity |].
  cbn -[truthy]. destruct (h _ w) as [[recorded | e] w1]; cbn -[truthy];
    [| reflexivity].
  destruct (truthy recorded); reflexivity.
Qed.

Lemma run_performContainerStateUpdateInCauldron
  (d : NativeApplicationDescriptor) (cv : option string) (w : W) :
  run h (performContainerStateUpdateInCauldron d cv) w =
  match run h (selectContainerVersion d cv) w with
  | (Returned v, w1, t1) =>
      let '(r, w2, t2) :=
        run h (try_catch (containerStateUpdate_try d v)
                 containerStateUpdate_catch) w1 in
      (r, w2, t1 ++ t2)
  | (Threw e, w1, t1) => (Threw e, w1, t1)
  | (Exited code, w1, t1) => (Exited code, w1, t1)
  end.
Proof. apply run_bind. Qed.

(** Every way an invocation can go: the version is given, read or not
    read; each call of the [try] and [catch] blocks is answered. *)
Ltac by_cases d cv w :=
  rewrite run_performContainerStateUpdateInCauldron;
  unfold selected; rewrite run_selectContainerVersion;
  unfold selection_steps;
  destruct (truthy cv) eqn:?;
  [ | destruct (h (cauldron_getTopLevelContainerVersion d) w) as [[?|?] ?] eqn:? ];
  unfold observed, outcome, calls, final, steps; cbn;
  answer_calls h.

(** The steps that an invocation makes are the first ones of the sequence
    of the source, with the selected version. *)
Lemma steps_prefix (d : NativeApplicationDescriptor) (cv : option string) (w : W) :
  exists n,
    steps (observed (run h (performContainerStateUpdateInCauldron d cv) w)) =
    firstn n (selection_steps d cv ++ update_steps d (selected h w d cv)).
Proof. by_cases d cv w; prefix_upto_6. Qed.

(** A version that is given is never looked up. *)
Lemma given_version_not_read (d : NativeApplicationDescriptor)
  (cv : option string) (w : W) :
  truthy cv = true ->
  Forall (fun x => is_version_read (fst x) = false)
    (observed (run h (performContainerStateUpdateInCauldron d cv) w)).
Proof.
  intros Hcv.
  rewrite run_performContainerStateUpdateInCauldron, run_selectContainerVersion, Hcv.
  unfold observed, calls; cbn. answer_calls h.
  all: repeat constructor.
Qed.

(** C1. Whenever opening the transaction, the state update of the caller,
    the container generation, the write of the version pointer or the
    commit fails with an error [e], the invocation throws that same [e];
    its last two calls are the log of the error and then
    [cauldron.discardTransaction()], so the discard is invoked before
    control returns; whatever the discard answers ([discarded] may be an
    error) nothing else is thrown: a failure of the discard is not
    escalated; and what a discard that succeeds establishes of the store
    ([closed]: the transaction is closed) holds when control returns
    after a discard that succeeded. *)
Theorem update_failure_discards_and_rethrows
  (d : NativeApplicationDescriptor) (cv : option string) (w : W)
  (c : ext) (e : JsError) :
  let r := run h (performContainerStateUpdateInCauldron d cv) w in
  is_update_step c = true ->
  In (c, Some e) (observed r) ->
  outcome r = Threw e
  /\ exists logged discarded pre,
       observed r =
       pre ++ [(log_error
                  ("[performContainerStateUpdateInCauldron] An error happened "
                   +:+ error_toString e), logged);
               (cauldron_discardTransaction, discarded)]
       /\ forall closed : W -> Prop,
            (forall w',
               rejection (fst (h cauldron_discardTransaction w')) = None ->
               closed (snd (h cauldron_discardTransaction w'))) ->
            discarded = None -> closed (final r).
Proof.
  intros r Hstep Hin; subst r; revert Hin.
  by_cases d cv w; intros Hin; in_trace Hin.
  all: split; [reflexivity | do 2 eexists].
  all: split_suffix_then
         ltac:(intros closed Hclosed Hnone;
               match goal with
               | Hd : h cauldron_discardTransaction ?w0 = (_, ?w1)
                 |- closed ?w1 =>
                   specialize (Hclosed w0); rewrite Hd in Hclosed;
                   exact (Hclosed Hnone)
               end).
Qed.

(** C2. The steps of an invocation are an initial part of the sequence:
    read of the current version (when none is given), transaction open,
    state update of the caller, container generation with [publish]
    enabled, write of the version pointer, commit; a successful invocation
    makes all of them; and every call that writes the version pointer or
    commits comes after the generation, with [publish] enabled, has
    succeeded. *)
Theorem update_steps_in_order
  (d : NativeApplicationDescriptor) (cv : option string) (w : W) :
  let r := run h (performContainerStateUpdateInCauldron d cv) w in
  let v := selected h w d cv in
  (exists n,
     steps (observed r) = firstn n (selection_steps d cv ++ update_steps d v))
  /\ (outcome r = Returned tt ->
      steps (observed r) = selection_steps d cv ++ update_steps d v)
  /\ (forall pre x post,
        observed r = pre ++ x :: post ->
        writes_pointer (fst x) = true ->
        In (runCauldronContainerGen d v (mkGenOptions true None), None) pre).
Proof.
  intros r v; subst r v.
  split; [apply steps_prefix | split].
  - by_cases d cv w; intros Hret; first [discriminate Hret | reflexivity].
  - intros pre x post Heq Hw.
    assert (Hp : preceded_by
                   (runCauldronContainerGen d (selected h w d cv)
                      (mkGenOptions true None), None) false
                   (observed (run h (performContainerStateUpdateInCauldron d cv) w))
                 = true); cycle 1.
    { destruct (preceded_by_spec _ false _ Hp pre x post Heq Hw) as [Hf | Hin];
        [discriminate Hf | exact Hin]. }
    clear. by_cases d cv w.
    all: repeat match goal with
           | |- context [bool_decide (?a = ?a)] =>
               rewrite (bool_decide_eq_true_2 (a = a) eq_refl)
           end.
    all: rewrite ?orb_true_r; cbn.
    all: reflexivity.
Qed.

(** C3. Without a container version, the invocation reads the current
    top-level container version of the descriptor; when the store records
    none, the selected version is [1.0.0]; when it records a version [V],
    the selected version is [semver.inc(V, 'patch')]; the generation and
    the write of the version pointer are made with the selected version. *)
Theorem version_selection_default_and_patch
  (d : NativeApplicationDescriptor) (cv : option string) (w : W)
  (recorded : option string) :
  truthy cv = false ->
  fst (h (cauldron_getTopLevelContainerVersion d) w) = Resolved recorded ->
  let r := run h (performContainerStateUpdateInCauldron d cv) w in
  let v := selected h w d cv in
  (recorded = None -> v = Some "1.0.0")
  /\ (forall V, recorded = Some V -> V <> "" -> v = semver_inc V "patch")
  /\ exists n,
       steps (observed r) =
       firstn n (cauldron_getTopLevelContainerVersion d :: update_steps d v).
Proof.
  intros Hcv Hread r v; subst r v.
  split; [| split].
  - intros ->. unfold selected. rewrite run_selectContainerVersion, Hcv.
    destruct (h (cauldron_getTopLevelContainerVersion d) w) as [a w1].
    cbn in Hread. subst a. reflexivity.
  - intros V -> HV. unfold selected. rewrite run_selectContainerVersion, Hcv.
    destruct (h (cauldron_getTopLevelContainerVersion d) w) as [a w1].
    cbn in Hread. subst a. cbn.
    destruct (String.eqb_spec V ""); [contradiction | reflexivity].
  - destruct (steps_prefix d cv w) as [n Hn]. exists n.
    rewrite Hn. unfold selection_steps. rewrite Hcv. reflexivity.
Qed.

(** C4. When the state update of the caller throws [e], the invocation
    throws [e], the transaction is discarded, no call writes the version
    pointer or commits, and what readers of the store see of the version
    pointer is what they saw before the call, in every environment in
    which only [cauldron.updateContainerVersion] and
    [cauldron.commitTransaction] can change it. *)
Theorem failed_state_update_leaves_pointer {O : Type} (pointer : W -> O)
  (d : NativeApplicationDescriptor) (cv : option string) (w : W) (e : JsError) :
  (forall c w', writes_pointer c = false -> pointer (snd (h c w')) = pointer w') ->
  let r := run h (performContainerStateUpdateInCauldron d cv) w in
  In (stateUpdateFunc, Some e) (observed r) ->
  outcome r = Threw e
  /\ In cauldron_discardTransaction (map fst (observed r))
  /\ Forall (fun x => writes_pointer (fst x) = false) (observed r)
  /\ pointer (final r) = pointer w.
Proof.
  intros frame r Hin.
  assert (Hshape : outcome r = Threw e
    /\ In cauldron_discardTransaction (map fst (observed r))
    /\ Forall (fun x => writes_pointer (fst x) = false) (observed r)).
  { subst r; revert Hin. clear frame.
    by_cases d cv w; intros Hin; in_trace Hin.
    all: split; [reflexivity | split; [cbn; tauto | repeat constructor]]. }
  destruct Hshape as (Ho & Hd & Hw).
  repeat split; try assumption.
  apply (frame_run h pointer writes_pointer frame). exact Hw.
Qed.

(** C5, as amended. When opening the transaction fails with an error [e],
    the invocation throws that same [e], whatever its name, after it has
    logged it and called [cauldron.discardTransaction()]; the state update
    of the caller, the container generation, the write of the version
    pointer and the commit are not called. *)
Theorem begin_failure_rethrown_unchanged
  (d : NativeApplicationDescriptor) (cv : option string) (w : W) (e : JsError) :
  let r := run h (performContainerStateUpdateInCauldron d cv) w in
  In (cauldron_beginTransaction, Some e) (observed r) ->
  outcome r = Threw e
  /\ Forall (fun x => is_later_step (fst x) = false) (observed r)
  /\ map fst (observed r) =
     selection_steps d cv ++
     [cauldron_beginTransaction;
      log_error ("[performContainerStateUpdateInCauldron] An error happened "
                 +:+ error_toString e);
      cauldron_discardTransaction].
Proof.
  intros r Hin; subst r; revert Hin.
  by_cases d cv w; intros Hin; in_trace Hin.
  all: split; [reflexivity | split; [repeat constructor | reflexivity]].
Qed.

(** C6. With a container version [v] (a non-empty string), version
    selection returns [v] as it is and makes no call; the invocation never
    reads the current top-level container version, and its steps are made
    with [v]. *)
Theorem explicit_version_used_verbatim
  (d : NativeApplicationDescriptor) (v : string) (w : W) :
  v <> "" ->
  let r := run h (performContainerStateUpdateInCauldron d (Some v)) w in
  run h (selectContainerVersion d (Some v)) w = (Returned (Some v), w, [])
  /\ selected h w d (Some v) = Some v
  /\ Forall (fun x => is_version_read (fst x) = false) (observed r)
  /\ exists n, steps (observed r) = firstn n (update_steps d (Some v)).
Proof.
  intros Hv r; subst r.
  pose proof (truthy_Some v Hv) as Ht.
  assert (Hsel : selected h w d (Some v) = Some v).
  { unfold selected. rewrite run_selectContainerVersion, Ht. reflexivity. }
  split; [| split; [| split]].
  - rewrite run_selectContainerVersion, Ht. reflexivity.
  - exact Hsel.
  - apply given_version_not_read. exact Ht.
  - destruct (steps_prefix d (Some v) w) as [n Hn]. exists n.
    rewrite Hn, Hsel. unfold selection_steps. rewrite Ht. reflexivity.
Qed.

(** X1. The read of the current version is made before the [try] block: when
    it fails its error is thrown as it is; no transaction is opened,
    nothing is logged and nothing is discarded. *)
Theorem failed_version_read_is_thrown
  (d : NativeApplicationDescriptor) (cv : option string) (w : W) (e : JsError) :
  let r := run h (performContainerStateUpdateInCauldron d cv) w in
  In (cauldron_getTopLevelContainerVersion d, Some e) (observed r) ->
  outcome r = Threw e
  /\ observed r = [(cauldron_getTopLevelContainerVersion d, Some e)].
Proof.
  intros r Hin; subst r; revert Hin.
  by_cases d cv w; intros Hin; in_trace Hin.
  split; reflexivity.
Qed.

(** X2. When the container generation throws [e], the invocation throws [e],
    the transaction is discarded, no call writes the version pointer or
    commits, and what readers of the store see of the version pointer is
    what they saw before the call, in every environment in which only
    [cauldron.updateContainerVersion] and [cauldron.commitTransaction] can
    change it. *)
Theorem failed_generation_leaves_pointer {O : Type} (pointer : W -> O)
  (d : NativeApplicationDescriptor) (cv : option string) (w : W)
  (v : option string) (o : GenOptions) (e : JsError) :
  (forall c w', writes_pointer c = false -> pointer (snd (h c w')) = pointer w') ->
  let r := run h (performContainerStateUpdateInCauldron d cv) w in
  In (runCauldronContainerGen d v o, Some e) (observed r) ->
  outcome r = Threw e
  /\ In cauldron_discardTransaction (map fst (observed r))
  /\ Forall (fun x => writes_pointer (fst x) = false) (observed r)
  /\ pointer (final r) = pointer w.
Proof.
  intros frame r Hin.
  assert (Hshape : outcome r = Threw e
    /\ In cauldron_discardTransaction (map fst (observed r))
    /\ Forall (fun x => writes_pointer (fst x) = false) (observed r)).
  { subst r; revert Hin. clear frame.
    by_cases d cv w; intros Hin; in_trace Hin.
    all: split; [reflexivity | split; [cbn; tauto | repeat constructor]]. }
  destruct Hshape as (Ho & Hd & Hw).
  repeat split; try assumption.
  apply (frame_run h pointer writes_pointer frame). exact Hw.
Qed.

(** X3. Every invocation ends in one of three ways: it returns after a commit
    that succeeded, without a discard; it throws after the log of the
    error and a discard, its last two calls; or it throws the error of the
    read of the current version, its only call. *)
Theorem committed_or_discarded
  (d : NativeApplicationDescriptor) (cv : option string) (w : W) :
  let r := run h (performContainerStateUpdateInCauldron d cv) w in
  (outcome r = Returned tt
   /\ In (cauldron_commitTransaction, None) (observed r)
   /\ ~ In cauldron_discardTransaction (map fst (observed r)))
  \/ (exists e logged discarded pre,
        outcome r = Threw e
        /\ observed r =
           pre ++ [(log_error
                      ("[performContainerStateUpdateInCauldron] An error happened "
                       +:+ error_toString e), logged);
                   (cauldron_discardTransaction, discarded)])
  \/ (exists e,
        outcome r = Threw e
        /\ observed r = [(cauldron_getTopLevelContainerVersion d, Some e)]).
Proof.
  intros r; subst r.
  by_cases d cv w.
  all: first
    [ left; split; [reflexivity |];
      split; [cbn; tauto | cbn; intros Hd; in_trace Hd]
    | right; left; do 3 eexists; split_suffix_with
    | right; right; eexists; split; reflexivity ].
Qed.

(** X4. A container version that is the empty string is falsy: it is
    treated as no container version, and the store is read. *)
Lemma empty_version_is_not_given (d : NativeApplicationDescriptor) (w : W) :
  run h (selectContainerVersion d (Some "")) w =
  run h (selectContainerVersion d None) w
  /\ run h (performContainerStateUpdateInCauldron d (Some "")) w =
     run h (performContainerStateUpdateInCauldron d None) w.
Proof.
  split.
  - rewrite !run_selectContainerVersion. reflexivity.
  - rewrite !run_performContainerStateUpdateInCauldron.
    rewrite !run_selectContainerVersion. reflexivity.
Qed.

End StateUpdate.

(** ** logErrorAndExitIfNotSatisfied *)

(** In the model a check that is awaited and one that is not behave alike:
    a failure is thrown where the check is made. *)
Lemma Ensure_await_sync (c : EnsureCall) : Ensure_await c = Ensure_sync c.
Proof. reflexivity. Qed.

Lemma ifPresent_check {A : Type} (key : option A) (text : string)
  (mk : A -> EnsureCall) (rest : prog unit) :
  bind (ifPresent key text (fun a => Ensure_sync (mk a))) (fun _ => rest) =
  checks_then (present key text mk) rest.
Proof. destruct key; reflexivity. Qed.

Lemma checks_then_present {A : Type} (key : option A) (text : string)
  (mk : A -> EnsureCall) (l : list (string * EnsureCall)) (rest : prog unit) :
  checks_then (present key text mk ++ l) rest =
  checks_then (present key text mk) (checks_then l rest).
Proof. destruct key; reflexivity. Qed.

(** The sequence of [if (key) { ... }] blocks of the source is the checker
    of the spec on the present keys, in the order of the source. *)
Lemma logErrorAndExitIfNotSatisfied_checkPreconditions (p : Preconditions) :
  logErrorAndExitIfNotSatisfied p = checkPreconditions (checks_in_order p).
Proof.
  unfold logErrorAndExitIfNotSatisfied, checkPreconditions, checks_in_order.
  rewrite !ifPresent_check.
  rewrite !checks_then_present.
  reflexivity.
Qed.

Lemma Forall_passed (l : list (string * EnsureCall)) :
  Forall (fun z : EnsureCall * option JsError => snd z = None) (map passed l).
Proof. induction l; constructor; auto. Qed.

Lemma in_passed (c : EnsureCall) (e : JsError) (l : list (string * EnsureCall)) :
  ~ In (c, Some e) (map passed l).
Proof.
  intros Hin. apply in_map_iff in Hin as (tc & Heq & _). discriminate Heq.
Qed.

Lemma in_present {A : Type} (key : option A) (text : string)
  (mk : A -> EnsureCall) (c : EnsureCall) :
  In c (map snd (present key text mk)) -> exists a, key = Some a /\ c = mk a.
Proof.
  destruct key as [a |]; cbn; [| contradiction].
  intros [<- | []]. exists a. split; reflexivity.
Qed.

Section Checker.
Context {W : Type} (h : handler W).

(** The checks of a list either all pass, or pass up to the first one that
    fails, which is reported before the process exits with status 1. *)
Lemma run_checks (l : list (string * EnsureCall)) (w : W) :
  let r := run h (try_catch (checks_then l all_passed) on_failure) w in
  (outcome r = Returned tt
   /\ ensure_calls (observed r) = map passed l
   /\ exists pre succeeded,
        observed r =
        pre ++ [(spinner_succeed "All initial checks have passed", succeeded)])
  \/ (exists n c e pre reported exited,
        outcome r = Exited 1
        /\ nth_error (map snd l) n = Some c
        /\ ensure_calls (observed r) = map passed (firstn n l) ++ [(c, Some e)]
        /\ observed r =
           pre ++ [(Ensure c, Some e);
                   (spinner_fail (err_message e), reported);
                   (process_exit 1, exited)]).
Proof.
  revert w. induction l as [| [text c] l IH]; intros w; cbn.
  - left. unfold outcome, observed, calls; cbn.
    destruct (h _ w) as [a w1]. cbn.
    split; [reflexivity | split; [reflexivity |]].
    exists [], (rejection a). reflexivity.
  - unfold outcome, observed, calls; cbn.
    destruct (h (spinner_text text) w) as [a w1].
    destruct (h (Ensure c) w1) as [[[] | e] w2]; cbn.
    + specialize (IH w2). cbn in IH. unfold outcome, observed, calls in IH.
      destruct (run h (try_catch (checks_then l all_passed) on_failure) w2)
        as [[o w3] tr]. cbn in *.
      destruct IH as [(Ho & Hc & pre & a0 & Htr)
                     | (n & c' & e & pre & a1 & a2 & Ho & Hn & Hc & Htr)].
      * left. split; [exact Ho |]. split.
        -- unfold ensure_calls in *. cbn. rewrite Hc. reflexivity.
        -- exists ((spinner_text text, rejection a) :: (Ensure c, None) :: pre), a0.
           rewrite Htr. reflexivity.
      * right.
        exists (S n), c', e,
          ((spinner_text text, rejection a) :: (Ensure c, None) :: pre), a1, a2.
        repeat split; try assumption.
        -- unfold ensure_calls in *. cbn. rewrite Hc. reflexivity.
        -- rewrite Htr. reflexivity.
    + right. destruct (h (spinner_fail (err_message e)) w2) as [a1 w3].
      destruct (h (process_exit 1) w3) as [a2 w4]. cbn.
      exists 0, c, e, [(spinner_text text, rejection a)],
        (rejection a1), (rejection a2).
      repeat split.
Qed.

Lemma run_checkPreconditions (l : list (string * EnsureCall)) (w : W) :
  let r := run h (checkPreconditions l) w in
  (outcome r = Returned tt
   /\ ensure_calls (observed r) = map passed l
   /\ exists pre succeeded,
        observed r =
        pre ++ [(spinner_succeed "All initial checks have passed", succeeded)])
  \/ (exists n c e pre reported exited,
        outcome r = Exited 1
        /\ nth_error (map snd l) n = Some c
        /\ ensure_calls (observed r) = map passed (firstn n l) ++ [(c, Some e)]
        /\ observed r =
           pre ++ [(Ensure c, Some e);
                   (spinner_fail (err_message e), reported);
                   (process_exit 1, exited)]).
Proof.
  unfold checkPreconditions. cbn.
  destruct (h (ora_start "Performing initial checks") w) as [a w1].
  pose proof (run_checks l w1) as Hr. cbn in Hr.
  unfold outcome, observed, calls in *.
  destruct (run h (try_catch (checks_then l all_passed) on_failure) w1)
    as [[o w2] tr].
  cbn in *.
  destruct Hr as [(Ho & Hc & pre & a0 & Htr)
                 | (n & c & e & pre & a1 & a2 & Ho & Hn & Hc & Htr)].
  - left. split; [exact Ho | split; [exact Hc |]].
    exists ((ora_start "Performing initial checks", rejection a) :: pre), a0.
    rewrite Htr. reflexivity.
  - right.
    exists n, c, e,
      ((ora_start "Performing initial checks", rejection a) :: pre), a1, a2.
    repeat split; try assumption. rewrite Htr. reflexivity.
Qed.

(** C7. The calls to [Ensure] that an invocation makes are an initial
    part of the checks of the present keys, in the fixed order of the
    source; every check of a present key is made unless a check before it
    failed: when no check that was made failed, all of them were made;
    nothing is checked after a check that failed; in particular, when the
    key [cauldronIsActive] is present and its check fails, no check of
    [isCompleteNapDescriptorString] is made. *)
Theorem checks_in_fixed_order_short_circuit (p : Preconditions) (w : W) :
  let r := run h (logErrorAndExitIfNotSatisfied p) w in
  let executed := ensure_calls (observed r) in
  (exists n, map fst executed = firstn n (map snd (checks_in_order p)))
  /\ (Forall (fun x => snd x = None) executed ->
      map fst executed = map snd (checks_in_order p))
  /\ (forall pre c e post, executed = pre ++ (c, Some e) :: post -> post = [])
  /\ (forall a e,
        cauldronIsActive p = Some a ->
        In (Ensure_cauldronIsActive (eo_extraErrorMessage a), Some e) executed ->
        forall x, In x executed ->
        forall descriptor extra,
          fst x <> Ensure_isCompleteNapDescriptorString descriptor extra).
Proof.
  intros r executed; subst r executed.
  rewrite logErrorAndExitIfNotSatisfied_checkPreconditions.
  pose proof (run_checkPreconditions (checks_in_order p) w) as Hr.
  cbv zeta in Hr.
  set (l := checks_in_order p) in *.
  set (executed := ensure_calls _) in *.
  destruct Hr as [(Ho & Hc & _)
                 | (n & c & e & pre & a1 & a2 & Ho & Hn & Hc & Htr)];
    rewrite Hc; clear Hc.
  - split; [| split; [| split]].
    + exists (length l). rewrite firstn_all2 by (rewrite length_map; lia).
      unfold passed. rewrite map_map. reflexivity.
    + intros _. unfold passed. rewrite map_map. reflexivity.
    + intros pre c e post Heq.
      exfalso. apply (in_passed c e l). rewrite Heq.
      apply in_or_app. right. left. reflexivity.
    + intros a e _ Hin. exfalso. exact (in_passed _ _ _ Hin).
  - split; [| split; [| split]].
    + exists (S n). rewrite map_app. unfold passed. rewrite map_map. cbn.
      rewrite (firstn_nth_error _ _ _ Hn). f_equal.
      rewrite <- firstn_map. reflexivity.
    + intros Hall. exfalso. apply Forall_app in Hall as [_ Hlast].
      inversion Hlast as [| x0 l0 Hx0 _]; subst. discriminate Hx0.
    + intros pre0 c0 e0 post Heq.
      destruct (failure_is_last (map passed (firstn n l)) (c, Some e)
                  (c0, Some e0) pre0 post (Forall_passed _) Heq) as [Hpost _];
        [cbn; discriminate | exact Hpost].
    + intros a e0 Ha Hin x Hx descriptor extra.
      apply in_app_or in Hin as [Hin | [Hin | []]];
        [exfalso; exact (in_passed _ _ _ Hin) |].
      inversion Hin; subst c e0. clear Hin.
      assert (n = 0) as ->.
      { destruct n as [| n]; [reflexivity | exfalso].
        subst l. unfold checks_in_order in Hn. rewrite Ha in Hn.
        cbn in Hn. apply nth_error_In in Hn.
        rewrite !map_app, !in_app_iff in Hn.
        repeat (destruct Hn as [Hn | Hn];
                [apply in_present in Hn as (? & _ & Hn); discriminate Hn |]).
        exact Hn. }
      cbn in Hx. destruct Hx as [<- | []]. cbn. discriminate.
Qed.

(** C8. When a check fails with an error [e], the invocation neither
    returns nor throws: it reports the message of [e] through
    [spinner.fail] and the process exits with status 1; these are its last
    calls. *)
Theorem failed_check_exits_with_1 (p : Preconditions) (w : W)
  (c : EnsureCall) (e : JsError) :
  let r := run h (logErrorAndExitIfNotSatisfied p) w in
  In (c, Some e) (ensure_calls (observed r)) ->
  outcome r = Exited 1
  /\ exists pre reported exited,
       observed r =
       pre ++ [(Ensure c, Some e);
               (spinner_fail (err_message e), reported);
               (process_exit 1, exited)].
Proof.
  intros r; subst r.
  rewrite logErrorAndExitIfNotSatisfied_checkPreconditions.
  pose proof (run_checkPreconditions (checks_in_order p) w) as Hr.
  cbv zeta in Hr.
  destruct Hr as [(Ho & Hc & _)
                 | (n & c0 & e0 & pre & a1 & a2 & Ho & Hn & Hc & Htr)];
    rewrite Hc; intros Hin.
  - exfalso. exact (in_passed _ _ _ Hin).
  - apply in_app_or in Hin as [Hin | [Hin | []]];
      [exfalso; exact (in_passed _ _ _ Hin) |].
    inversion Hin; subst c0 e0.
    split; [exact Ho |]. exists pre, a1, a2. exact Htr.
Qed.

(** X5. When no check fails, every check of a present key is made, once and
    in the order of the source, the success is reported through
    [spinner.succeed], the last call, and the invocation returns. *)
Theorem passed_checks_return (p : Preconditions) (w : W) :
  let r := run h (logErrorAndExitIfNotSatisfied p) w in
  Forall (fun x => snd x = None) (ensure_calls (observed r)) ->
  outcome r = Returned tt
  /\ map fst (ensure_calls (observed r)) = map snd (checks_in_order p)
  /\ exists pre succeeded,
       observed r =
       pre ++ [(spinner_succeed "All initial checks have passed", succeeded)].
Proof.
  intros r; subst r.
  rewrite logErrorAndExitIfNotSatisfied_checkPreconditions.
  pose proof (run_checkPreconditions (checks_in_order p) w) as Hr.
  cbv zeta in Hr.
  destruct Hr as [(Ho & Hc & Hs)
                 | (n & c0 & e0 & pre & a1 & a2 & Ho & Hn & Hc & Htr)];
    rewrite Hc; intros Hall.
  - split; [exact Ho | split; [| exact Hs]].
    unfold passed. rewrite map_map. reflexivity.
  - exfalso. apply Forall_app in Hall as [_ Hlast].
    inversion Hlast as [| x l Hx _]; subst. discriminate Hx.
Qed.

(** X6. In every environment and from every state, the source and the checker
    of the spec on the present keys, in the order of the source, make the
    same calls and end in the same way. *)
Theorem checker_runs_as_specified (p : Preconditions) (w : W) :
  run h (logErrorAndExitIfNotSatisfied p) w =
  run h (checkPreconditions (checks_in_order p)) w.
Proof.
  rewrite logErrorAndExitIfNotSatisfied_checkPreconditions.
  reflexivity.
Qed.

End Checker.

(** ** runMiniApp *)

(** On inconsistent inputs one of the four tests of the source holds. *)
Lemma inconsistent_inputs_guard (o : RunMiniAppOptions) :
  inconsistent_inputs o ->
  (longer_than 1 (miniapps o) && negb (truthy (mainMiniAppName o)))
  || (longer_than 1 (miniapps o) && flag (dev o))
  || (longer_than 0 (dependencies o) && truthy (descriptor o))
  || (bool_decide (is_Some (miniapps o)) && truthy (descriptor o)) = true.
Proof.
  intros [(ms & Hms & Hlen & Hname)
         | [(ms & Hms & Hlen & Hdev)
           | [(ds & desc & Hds & Hne & Hdesc & Hd)
             | (ms & desc & Hms & Hdesc & Hd)]]].
  - rewrite Hms. cbn [longer_than]. apply Nat.ltb_lt in Hlen. rewrite Hlen.
    destruct Hname as [-> | ->]; reflexivity.
  - rewrite Hms, Hdev. cbn [longer_than flag]. apply Nat.ltb_lt in Hlen.
    rewrite Hlen. cbn [andb]. rewrite orb_true_r. reflexivity.
  - rewrite Hds, Hdesc, (truthy_Some desc Hd). cbn [longer_than].
    assert (Nat.ltb 0 (length ds) = true) as ->
      by (apply Nat.ltb_lt; destruct ds; [contradiction | cbn; lia]).
    cbn [andb]. rewrite orb_true_r. reflexivity.
  - rewrite Hms, Hdesc, (truthy_Some desc Hd).
    rewrite bool_decide_eq_true_2 by (eexists; reflexivity).
    cbn [andb]. rewrite orb_true_r. reflexivity.
Qed.

Section RunMiniApp.
Context {W : Type} (h : handler W).

(** C9. On an inconsistent combination of inputs the invocation throws,
    and the only call it has made is [process.cwd()]: no precondition is
    checked, no container is generated, nothing is changed. *)
Theorem runMiniApp_rejects_inconsistent_inputs
  (platform : string) (o : RunMiniAppOptions) (w : W) :
  inconsistent_inputs o ->
  let r := run h (runMiniApp platform o) w in
  (exists e, outcome r = Threw e)
  /\ map fst (observed r) = [process_cwd].
Proof.
  intros Hbad r; subst r.
  apply inconsistent_inputs_guard in Hbad. revert Hbad.
  unfold runMiniApp, observed, outcome, calls.
  destruct (longer_than 1 (miniapps o) && negb (truthy (mainMiniAppName o)));
    [intros _ |
     destruct (longer_than 1 (miniapps o) && flag (dev o));
     [intros _ |
      destruct (longer_than 0 (dependencies o) && truthy (descriptor o));
      [intros _ |
       destruct (bool_decide (is_Some (miniapps o)) && truthy (descriptor o));
       [intros _ | intros Hbad; discriminate Hbad]]]].
  all: cbn; destruct (h process_cwd w) as [[cwd | e] w1]; cbn.
  all: split; [eexists; reflexivity | reflexivity].
Qed.

End RunMiniApp.

(** ** getNapDescriptorStringsFromCauldron *)

Lemma flattenDeep_elt_JArr (l : list jsval) :
  flattenDeep_elt (JArr l) = flat_map flattenDeep_elt l.
Proof.
  cbn. induction l as [| x l IH]; [reflexivity |].
  cbn. rewrite IH. reflexivity.
Qed.

Lemma flattenDeep_elt_leaf (v : jsval) : is_leaf v -> flattenDeep_elt v = [v].
Proof. destruct v; cbn; [reflexivity | reflexivity | contradiction]. Qed.

Lemma flat_map_leaves {A : Type} (f : A -> jsval) (l : list A) :
  (forall a, is_leaf (f a)) ->
  flat_map flattenDeep_elt (map f l) = map f l.
Proof.
  intros Hf. induction l as [| a l IH]; [reflexivity |].
  cbn. rewrite (flattenDeep_elt_leaf _ (Hf a)), IH. reflexivity.
Qed.

Lemma leaf_napDescriptorString (o : NapFilter) (a : NativeApp)
  (p : NativeAppPlatform) (v : NativeAppVersion) :
  is_leaf (napDescriptorString_or_undefined o a p v).
Proof.
  unfold napDescriptorString_or_undefined.
  repeat match goal with
         | |- context [if ?b then _ else _] => destruct b
         end; exact I.
Qed.

(** What the returned array holds: the defined values that the arrow
    function gave for the versions of the store. *)
Lemma in_napDescriptorStrings (o : NapFilter) (apps : list NativeApp)
  (x : jsval) (l : list jsval) :
  napDescriptorStrings o apps = JArr l ->
  In x l ->
  is_defined x = true /\
  exists app p v,
    In app apps /\ In p (platforms app) /\ In v (versions p)
    /\ x = napDescriptorString_or_undefined o app p v.
Proof.
  unfold napDescriptorStrings, lodash_filter, lodash_flattenDeep, lodash_map.
  rewrite flattenDeep_elt_JArr. intros Heq Hin. inversion Heq; subst l; clear Heq.
  apply filter_In in Hin as [Hin Hdef]. split; [exact Hdef |].
  apply in_flat_map in Hin as (y & Hy & Hin).
  apply in_map_iff in Hy as (app & <- & Happ).
  rewrite flattenDeep_elt_JArr in Hin.
  apply in_flat_map in Hin as (z & Hz & Hin).
  apply in_map_iff in Hz as (p & <- & Hp).
  rewrite flattenDeep_elt_JArr in Hin.
  rewrite flat_map_leaves in Hin by (intros; apply leaf_napDescriptorString).
  apply in_map_iff in Hin as (v & <- & Hv).
  exists app, p, v. repeat split; assumption.
Qed.

Section NapDescriptorStrings.
Context {W : Type} (h : handler W).

(** C10. When the store resolves to [apps], the function returns an
    array; with [onlyReleasedVersions] and [onlyNonReleasedVersions] both
    true the array is empty; and every element of the array is a string
    [name:platform:version] for a version of a platform of a native
    application of [apps]: no element is [undefined]. *)
Theorem napDescriptorStrings_defined_and_filtered
  (o : NapFilter) (w : W) (apps : list NativeApp) :
  fst (h cauldron_getAllNativeApps w) = Resolved apps ->
  let r := run h (getNapDescriptorStringsFromCauldron o) w in
  exists l,
    outcome r = Returned (JArr l)
    /\ (onlyReleasedVersions o = Some true ->
        onlyNonReleasedVersions o = Some true -> l = [])
    /\ Forall (fun x => exists app p v,
                 In app apps /\ In p (platforms app) /\ In v (versions p)
                 /\ x = JStr (app_name app +:+ ":" +:+ platform_name p +:+ ":"
                              +:+ version_name v)) l.
Proof.
  intros Hget r; subst r.
  unfold getNapDescriptorStringsFromCauldron, outcome.
  cbn -[napDescriptorStrings].
  destruct (h cauldron_getAllNativeApps w) as [a w1]. cbn in Hget. subst a.
  cbn -[napDescriptorStrings].
  destruct (napDescriptorStrings o apps) as [| s | l] eqn:Hl;
    try (unfold napDescriptorStrings, lodash_filter, lodash_flattenDeep,
           lodash_map in Hl;
         discriminate Hl).
  exists l. split; [reflexivity |]. split.
  - intros Hrel Hnon. destruct l as [| x l]; [reflexivity | exfalso].
    destruct (in_napDescriptorStrings o apps x _ Hl (or_introl eq_refl))
      as (Hdef & app & p & v & _ & _ & _ & ->).
    unfold napDescriptorString_or_undefined in Hdef.
    rewrite Hrel, Hnon in Hdef. cbn in Hdef.
    rewrite !andb_false_r in Hdef. cbn in Hdef.
    destruct (_ || _) in Hdef; discriminate Hdef.
  - apply List.Forall_forall. intros x Hx.
    destruct (in_napDescriptorStrings o apps x _ Hl Hx)
      as (Hdef & app & p & v & Happ & Hp & Hv & ->).
    exists app, p, v. repeat split; try assumption.
    unfold napDescriptorString_or_undefined in *.
    repeat match goal with
           | |- context [if ?b then _ else _] => destruct b
           end; try reflexivity; discriminate Hdef.
Qed.

End NapDescriptorStrings.

(** ** The model of the state store *)

Section Model.
Import CauldronModel.

(** In the model only the write of the version pointer and the commit
    change the version pointer that readers see. *)
Lemma only_writes_move_pointer (env : Collaborators)
  (d : NativeApplicationDescriptor) (c : ext) (w : Cauldron) :
  writes_pointer c = false ->
  pointer d (snd (answer env c w)) = pointer d w.
Proof.
  destruct w as [vis [t |] reach pub apps].
  all: destruct c; intros Hw; try discriminate Hw.
  all: unfold pointer, answer, set_current, current; cbn.
  all: repeat case_match; reflexivity.
Qed.


Lemma lookup_write_version (key : string) (v : option string)
  (m : gmap string string) :
  write_version key v m !! key = v.
Proof.
  destruct v as [s |]; cbn; [apply lookup_insert_eq | apply lookup_delete_eq].
Qed.

(** X8. In the model an invocation that returns has made the selected version
    the version that readers see, and has published its container. *)
Theorem successful_update_commits_selected `{SemverApi} (env : Collaborators)
  (d : NativeApplicationDescriptor) (cv : option string) (w : Cauldron) :
  let r := run (answer env) (performContainerStateUpdateInCauldron d cv) w in
  outcome r = Returned tt ->
  pointer d (final r) = selected (answer env) w d cv
  /\ publishedContainers (final r) =
     publishedContainers w ++ [(nap_toString d, selected (answer env) w d cv)]
  /\ transaction (final r) = None.
Proof.
  intros r; subst r.
  rewrite run_performContainerStateUpdateInCauldron.
  unfold selected. rewrite run_selectContainerVersion.
  unfold final, outcome, pointer.
  destruct w as [vis [t |] [|] pub apps].
  all: destruct (truthy cv).
  all: repeat (cbn; unfold set_current, current; cbn;
               match goal with
               | |- context [callback ?c ?m] =>
                   destruct (callback c m) as [[[] | ?] ?]
               | |- context [generator ?c ?d' ?v ?o] =>
                   destruct (generator c d' v o) as [[] | ?]
               | |- context [if truthy ?x then _ else _] => destruct (truthy x)
               end).
  all: intros Hret; try discriminate Hret.
  all: split; [| split; reflexivity].
  all: apply lookup_write_version.
Qed.

(** The scenario of the spec: the container version [2.1.0] is recorded;
    an update without a container version, with a state update and a
    generator that succeed, commits [2.1.1] and publishes its container. *)
Example scenario_update_commits :
  let r := run (answer succeeding)
             (performContainerStateUpdateInCauldron (H := NodeSemver.api) myApp None)
             scenario in
  outcome r = Returned tt
  /\ pointer myApp (final r) = Some "2.1.1"
  /\ transaction (final r) = None
  /\ publishedContainers (final r) = [("MyApp:android:1.0.0", Some "2.1.1")].
Proof. vm_compute. repeat split. Qed.

(** The same scenario with a generator that throws: the error is thrown
    again, the transaction is discarded, the version stays [2.1.0]. *)
Example scenario_generator_fails :
  let r := run (answer failing_generator)
             (performContainerStateUpdateInCauldron (H := NodeSemver.api) myApp None)
             scenario in
  outcome r = Threw (new_Error "Container generation failed")
  /\ pointer myApp (final r) = Some "2.1.0"
  /\ transaction (final r) = None
  /\ publishedContainers (final r) = [].
Proof. vm_compute. repeat split. Qed.

End Model.

(** ** The theorems at concrete inputs *)

Section Instances.
Import CauldronModel.

Ltac found := repeat first [ left; reflexivity | right ].

(** The generator throws and the discard fails too: the error of the
    generator is the one thrown. *)
Lemma update_failure_discards_and_rethrows_witness :
  let r := run (failing_discard failing_generator)
             (performContainerStateUpdateInCauldron (H := NodeSemver.api) myApp None)
             scenario in
  let c := runCauldronContainerGen myApp (Some "2.1.1") (mkGenOptions true None) in
  let e := new_Error "Container generation failed" in
  is_update_step c = true
  /\ In (c, Some e) (observed r)
  /\ In (cauldron_discardTransaction,
         Some (new_Error "Could not discard the transaction")) (observed r)
  /\ outcome r = Threw e.
Proof.
  intros r c e.
  assert (Hstep : is_update_step c = true) by reflexivity.
  assert (Hin : In (c, Some e) (observed r)) by (vm_compute; found).
  split; [exact Hstep | split; [exact Hin | split; [vm_compute; found |]]].
  exact (proj1 (update_failure_discards_and_rethrows (H := NodeSemver.api)
                  (failing_discard failing_generator) myApp None scenario c e
                  Hstep Hin)).
Defined.

(** The successful scenario makes all the steps, in order. *)
Lemma update_steps_in_order_witness :
  let r := run (answer succeeding)
             (performContainerStateUpdateInCauldron (H := NodeSemver.api) myApp None)
             scenario in
  outcome r = Returned tt
  /\ steps (observed r) =
     [cauldron_getTopLevelContainerVersion myApp;
      cauldron_beginTransaction;
      stateUpdateFunc;
      runCauldronContainerGen myApp (Some "2.1.1") (mkGenOptions true None);
      cauldron_updateContainerVersion myApp (Some "2.1.1");
      cauldron_commitTransaction].
Proof.
  intros r.
  assert (Hret : outcome r = Returned tt) by reflexivity.
  split; [exact Hret |].
  destruct (update_steps_in_order (H := NodeSemver.api) (answer succeeding)
              myApp None scenario) as (_ & Hall & _).
  exact (Hall Hret).
Defined.

(** The version [2.1.0] is recorded: the selected version is [2.1.1]. *)
Lemma version_selection_default_and_patch_witness :
  truthy None = false
  /\ fst (answer succeeding (cauldron_getTopLevelContainerVersion myApp) scenario)
     = Resolved (Some "2.1.0")
  /\ selected (H := NodeSemver.api) (answer succeeding) scenario myApp None
     = Some "2.1.1".
Proof.
  assert (Hcv : truthy None = false) by reflexivity.
  assert (Hread : fst (answer succeeding
                         (cauldron_getTopLevelContainerVersion myApp) scenario)
                  = Resolved (Some "2.1.0")) by reflexivity.
  split; [exact Hcv | split; [exact Hread |]].
  destruct (version_selection_default_and_patch (H := NodeSemver.api)
              (answer succeeding) myApp None scenario (Some "2.1.0") Hcv Hread)
    as (_ & Hpatch & _).
  exact (Hpatch "2.1.0" eq_refl ltac:(discriminate)).
Defined.

(** The state update changes the manifest and throws: the version that
    readers see stays [2.1.0]. *)
Lemma failed_state_update_leaves_pointer_witness :
  let r := run (answer failing_callback)
             (performContainerStateUpdateInCauldron (H := NodeSemver.api) myApp None)
             scenario in
  let e := new_Error "MiniApp not found" in
  (forall c w, writes_pointer c = false ->
     pointer myApp (snd (answer failing_callback c w)) = pointer myApp w)
  /\ In (stateUpdateFunc, Some e) (observed r)
  /\ outcome r = Threw e
  /\ pointer myApp (final r) = Some "2.1.0".
Proof.
  intros r e.
  assert (Hin : In (stateUpdateFunc, Some e) (observed r)) by (vm_compute; found).
  destruct (failed_state_update_leaves_pointer (H := NodeSemver.api)
              (answer failing_callback) (pointer myApp) myApp None scenario e
              (only_writes_move_pointer failing_callback myApp) Hin)
    as (Hthrown & _ & _ & Hsame).
  split; [apply only_writes_move_pointer |].
  split; [exact Hin | split; [exact Hthrown |]].
  transitivity (pointer myApp scenario); [exact Hsame | reflexivity].
Defined.

(** The generator throws: the version that readers see stays [2.1.0]. *)
Lemma failed_generation_leaves_pointer_witness :
  let r := run (answer failing_generator)
             (performContainerStateUpdateInCauldron (H := NodeSemver.api) myApp None)
             scenario in
  let c := runCauldronContainerGen myApp (Some "2.1.1") (mkGenOptions true None) in
  let e := new_Error "Container generation failed" in
  (forall c w, writes_pointer c = false ->
     pointer myApp (snd (answer failing_generator c w)) = pointer myApp w)
  /\ In (c, Some e) (observed r)
  /\ outcome r = Threw e
  /\ pointer myApp (final r) = Some "2.1.0".
Proof.
  intros r c e.
  assert (Hin : In (c, Some e) (observed r)) by (vm_compute; found).
  destruct (failed_generation_leaves_pointer (H := NodeSemver.api)
              (answer failing_generator) (pointer myApp) myApp None scenario
              (Some "2.1.1") (mkGenOptions true None) e
              (only_writes_move_pointer failing_generator myApp) Hin)
    as (Hthrown & _ & _ & Hsame).
  split; [apply only_writes_move_pointer |].
  split; [exact Hin | split; [exact Hthrown |]].
  transitivity (pointer myApp scenario); [exact Hsame | reflexivity].
Defined.

(** The store of the scenario when the read of the current version fails. *)
Lemma failed_version_read_is_thrown_witness :
  let broken : handler Cauldron :=
    fun c =>
      match c as c0 return Cauldron -> settled (ret_type c0) * Cauldron with
      | cauldron_getTopLevelContainerVersion _ => fun w =>
          (Rejected (new_Error "Cauldron is not reachable"), w)
      | c0 => answer succeeding c0
      end in
  let r := run broken
             (performContainerStateUpdateInCauldron (H := NodeSemver.api) myApp None)
             scenario in
  let e := new_Error "Cauldron is not reachable" in
  In (cauldron_getTopLevelContainerVersion myApp, Some e) (observed r)
  /\ outcome r = Threw e.
Proof.
  intros broken r e.
  assert (Hin : In (cauldron_getTopLevelContainerVersion myApp, Some e)
                  (observed r)) by (vm_compute; found).
  split; [exact Hin |].
  exact (proj1 (failed_version_read_is_thrown (H := NodeSemver.api) broken
                  myApp None scenario e Hin)).
Defined.

(** Both checks pass on the store of the scenario. *)
Lemma passed_checks_return_witness :
  let r := run (answer succeeding)
             (logErrorAndExitIfNotSatisfied active_and_complete) scenario in
  Forall (fun x => snd x = None) (ensure_calls (observed r))
  /\ outcome r = Returned tt
  /\ map fst (ensure_calls (observed r)) =
     [Ensure_cauldronIsActive None;
      Ensure_isCompleteNapDescriptorString "MyApp:android:1.0.0" None].
Proof.
  intros r.
  assert (Hall : Forall (fun x => snd x = None) (ensure_calls (observed r)))
    by (vm_compute; repeat constructor).
  destruct (passed_checks_return (answer succeeding) active_and_complete
              scenario Hall) as (Hret & Hcalls & _).
  split; [exact Hall | split; [exact Hret | exact Hcalls]].
Defined.

(** The successful scenario: [2.1.1] is what readers see afterwards. *)
Lemma successful_update_commits_selected_witness :
  let r := run (answer succeeding)
             (performContainerStateUpdateInCauldron (H := NodeSemver.api) myApp None)
             scenario in
  outcome r = Returned tt
  /\ pointer myApp (final r) = Some "2.1.1".
Proof.
  intros r.
  assert (Hret : outcome r = Returned tt) by reflexivity.
  split; [exact Hret |].
  destruct (successful_update_commits_selected (H := NodeSemver.api) succeeding
              myApp None scenario Hret) as (Hptr & _ & _).
  transitivity (selected (H := NodeSemver.api) (answer succeeding) scenario
                  myApp None); [exact Hptr | reflexivity].
Defined.

(** The store cannot be reached: the error of [beginTransaction] is thrown
    as it is, and it is an [Error], not a [StateStoreUnavailable]. *)
Lemma begin_failure_rethrown_unchanged_witness :
  let r := run (answer succeeding)
             (performContainerStateUpdateInCauldron (H := NodeSemver.api) myApp None)
             unreachable in
  let e := new_Error "Cauldron is not reachable" in
  In (cauldron_beginTransaction, Some e) (observed r)
  /\ outcome r = Threw e.
Proof.
  intros r e.
  assert (Hin : In (cauldron_beginTransaction, Some e) (observed r))
    by (vm_compute; found).
  split; [exact Hin |].
  exact (proj1 (begin_failure_rethrown_unchanged (H := NodeSemver.api)
                  (answer succeeding) myApp None unreachable e Hin)).
Defined.

(** C1 as stated fails: the generator throws and the discard fails too;
    the error of the generator is thrown and the transaction is still
    open when control returns. *)
Lemma failed_discard_leaves_transaction_open :
  let r := run (failing_discard failing_generator)
             (performContainerStateUpdateInCauldron (H := NodeSemver.api) myApp None)
             scenario in
  In (runCauldronContainerGen myApp (Some "2.1.1") (mkGenOptions true None),
      Some (new_Error "Container generation failed")) (observed r)
  /\ In (cauldron_discardTransaction,
         Some (new_Error "Could not discard the transaction")) (observed r)
  /\ outcome r = Threw (new_Error "Container generation failed")
  /\ transaction (final r) <> None.
Proof.
  split; [vm_compute; found |].
  split; [vm_compute; found |].
  split; [reflexivity |].
  vm_compute. discriminate.
Qed.

(** C6 as stated fails: the container version that is given is the empty
    string; the store is read and the version selected is [2.1.1]. *)
Lemma empty_container_version_is_not_verbatim :
  let r := run (answer succeeding)
             (performContainerStateUpdateInCauldron (H := NodeSemver.api)
                myApp (Some ""))
             scenario in
  selected (H := NodeSemver.api) (answer succeeding) scenario myApp (Some "")
  = Some "2.1.1"
  /\ selected (H := NodeSemver.api) (answer succeeding) scenario myApp (Some "")
     <> Some ""
  /\ In (cauldron_getTopLevelContainerVersion myApp, None) (observed r).
Proof.
  split; [reflexivity |].
  split; [vm_compute; discriminate |].
  vm_compute; found.
Qed.

(** C5 as stated fails: opening the transaction fails, and the error that
    the invocation throws is not a [StateStoreUnavailable] error. *)
Lemma begin_failure_is_not_StateStoreUnavailable :
  let r := run (answer succeeding)
             (performContainerStateUpdateInCauldron (H := NodeSemver.api) myApp None)
             unreachable in
  In (cauldron_beginTransaction, Some (new_Error "Cauldron is not reachable"))
    (observed r)
  /\ ~ (exists e, outcome r = Threw e /\ is_StateStoreUnavailable e = true).
Proof.
  split.
  - vm_compute; found.
  - intros (e & He & Hname). vm_compute in He. inversion He; subst e.
    discriminate Hname.
Qed.

(** The container version [3.0.0] is given: the store, which records
    [2.1.0], is not read. *)
Lemma explicit_version_used_verbatim_witness :
  "3.0.0" <> ""
  /\ selected (H := NodeSemver.api) (answer succeeding) scenario myApp (Some "3.0.0")
     = Some "3.0.0"
  /\ Forall (fun x => is_version_read (fst x) = false)
       (observed (run (answer succeeding)
                    (performContainerStateUpdateInCauldron (H := NodeSemver.api)
                       myApp (Some "3.0.0")) scenario)).
Proof.
  assert (Hv : "3.0.0" <> "") by discriminate.
  destruct (explicit_version_used_verbatim (H := NodeSemver.api)
              (answer succeeding) myApp "3.0.0" scenario Hv)
    as (_ & Hsel & Hread & _).
  split; [exact Hv | split; [exact Hsel | exact Hread]].
Defined.

(** No Cauldron is active: the descriptor is not checked. *)
Lemma checks_in_fixed_order_short_circuit_witness :
  let r := run (answer succeeding)
             (logErrorAndExitIfNotSatisfied active_and_complete) unreachable in
  let e := new_Error "There is no active Cauldron" in
  In (Ensure_cauldronIsActive None, Some e) (ensure_calls (observed r))
  /\ forall x, In x (ensure_calls (observed r)) ->
     forall descriptor extra,
       fst x <> Ensure_isCompleteNapDescriptorString descriptor extra.
Proof.
  intros r e.
  assert (Hin : In (Ensure_cauldronIsActive None, Some e)
                  (ensure_calls (observed r))) by (vm_compute; found).
  split; [exact Hin |].
  destruct (checks_in_fixed_order_short_circuit (answer succeeding)
              active_and_complete unreachable) as (_ & _ & _ & Hfirst).
  exact (Hfirst (mkExtraOnly None) e eq_refl Hin).
Defined.

(** No Cauldron is active: the process exits with status 1. *)
Lemma failed_check_exits_with_1_witness :
  let r := run (answer succeeding)
             (logErrorAndExitIfNotSatisfied active_and_complete) unreachable in
  let e := new_Error "There is no active Cauldron" in
  In (Ensure_cauldronIsActive None, Some e) (ensure_calls (observed r))
  /\ outcome r = Exited 1.
Proof.
  intros r e.
  assert (Hin : In (Ensure_cauldronIsActive None, Some e)
                  (ensure_calls (observed r))) by (vm_compute; found).
  split; [exact Hin |].
  exact (proj1 (failed_check_exits_with_1 (answer succeeding)
                  active_and_complete unreachable _ e Hin)).
Defined.

(** Two MiniApps without the name of the main one. *)
Lemma runMiniApp_rejects_inconsistent_inputs_witness :
  let r := run (answer succeeding) (runMiniApp "android" two_miniapps) scenario in
  inconsistent_inputs two_miniapps
  /\ (exists e, outcome r = Threw e)
  /\ map fst (observed r) = [process_cwd].
Proof.
  intros r.
  assert (Hbad : inconsistent_inputs two_miniapps).
  { left. exists ["first-miniapp"; "second-miniapp"].
    split; [reflexivity | split; [cbn; lia | left; reflexivity]]. }
  split; [exact Hbad |].
  exact (runMiniApp_rejects_inconsistent_inputs (answer succeeding) "android"
           two_miniapps scenario Hbad).
Defined.

(** Both filters at once on the store of the scenario: nothing is left. *)
Lemma napDescriptorStrings_defined_and_filtered_witness :
  fst (answer succeeding cauldron_getAllNativeApps scenario)
  = Resolved (nativeApps scenario)
  /\ outcome (run (answer succeeding)
                (getNapDescriptorStringsFromCauldron both_filters) scenario)
     = Returned (JArr []).
Proof.
  assert (Hget : fst (answer succeeding cauldron_getAllNativeApps scenario)
                 = Resolved (nativeApps scenario)) by reflexivity.
  split; [exact Hget |].
  destruct (napDescriptorStrings_defined_and_filtered (answer succeeding)
              both_filters scenario (nativeApps scenario) Hget)
    as (l & Hl & Hempty & _).
  rewrite Hl, (Hempty eq_refl eq_refl). reflexivity.
Defined.

(** Without filters the versions of the store are listed. *)
Example nap_descriptor_strings_of_scenario :
  outcome (run (answer succeeding)
             (getNapDescriptorStringsFromCauldron (mkNapFilter None None None))
             scenario)
  = Returned (JArr [JStr "MyApp:android:1.0.0"; JStr "MyApp:android:1.1.0"]).
Proof. reflexivity. Qed.

End Instances.

(** ** What programs call and return *)

Lemma confined_bind given (P : ext -> Prop) {A B : Type} (Q : A -> Prop)
  (Q' : B -> Prop) (p : prog A) (f : A -> prog B) :
  confined given P Q p -> (forall a, Q a -> confined given P Q' (f a)) ->
  confined given P Q' (bind p f).
Proof.
  intros Hp Hf. induction Hp as [a Ha | e | code | c k Hc Hk IH]; cbn.
  - apply Hf, Ha.
  - constructor.
  - constructor.
  - constructor; [exact Hc | exact IH].
Qed.

Lemma confined_try_catch given (P : ext -> Prop) {A : Type} (Q : A -> Prop)
  (p : prog A) (handle : JsError -> prog A) :
  confined given P Q p -> (forall e, confined given P Q (handle e)) ->
  confined given P Q (try_catch p handle).
Proof.
  intros Hp Hh. induction Hp as [a Ha | e | code | c k Hc Hk IH]; cbn.
  - constructor. exact Ha.
  - apply Hh.
  - constructor.
  - constructor; [exact Hc | exact IH].
Qed.

Section Confined.
Context {W : Type} (h : handler W).

(** A run shows only the calls and the results to which the program is
    confined. *)
Lemma confined_run given (P : ext -> Prop) {A : Type} (Q : A -> Prop)
  (p : prog A) (w : W) :
  (forall c w', given c (fst (h c w'))) ->
  confined given P Q p ->
  Forall (fun x => P (fst x)) (observed (run h p w))
  /\ forall a, outcome (run h p w) = Returned a -> Q a.
Proof.
  intros Hgiven Hp. revert w.
  induction Hp as [a Ha | e | code | c k Hc Hk IH]; intros w.
  - split; [constructor | intros a' [= <-]; exact Ha].
  - split; [constructor | discriminate].
  - split; [constructor | discriminate].
  - unfold observed, calls, outcome. cbn.
    specialize (Hgiven c w).
    destruct (h c w) as [a w1]. specialize (IH a Hgiven w1).
    unfold observed, calls, outcome in IH.
    destruct (run h (k a) w1) as [[r w2] tr]. cbn in *.
    destruct IH as [IH1 IH2].
    split; [constructor; [exact Hc | exact IH1] | exact IH2].
Qed.

Lemma confined_calls (P : ext -> Prop) {A : Type} (Q : A -> Prop)
  (p : prog A) (w : W) :
  confined any_answer P Q p ->
  Forall (fun x => P (fst x)) (observed (run h p w)).
Proof.
  intros Hp. apply (confined_run any_answer P Q p w); [exact (fun _ _ => I) | exact Hp].
Qed.

Lemma confined_never_returns (P : ext -> Prop) {A : Type}
  (p : prog A) (w : W) (a : A) :
  confined any_answer P nothing p -> outcome (run h p w) <> Returned a.
Proof.
  intros Hp Hr.
  exact (proj2 (confined_run any_answer P nothing p w (fun _ _ => I) Hp) a Hr).
Qed.

Lemma run_try_catch {A : Type} (p : prog A) (handle : JsError -> prog A) (w : W) :
  run h (try_catch p handle) w =
  match run h p w with
  | (Threw e, w1, t1) =>
      let '(r, w2, t2) := run h (handle e) w1 in (r, w2, t1 ++ t2)
  | other => other
  end.
Proof.
  revert w. induction p as [a | e | code | c k IH]; intros w; simpl.
  - reflexivity.
  - destruct (run h (handle e) w) as [[r w2] t2]. reflexivity.
  - reflexivity.
  - destruct (h c w) as [a w1]. rewrite IH.
    destruct (run h (k a) w1) as [[[x | e | code] w2] t1]; try reflexivity.
    destruct (run h (handle e) w2) as [[r w3] t2]. reflexivity.
Qed.

End Confined.

(** The side condition of a call or of a result: a conjunction of
    equations and disjunctions that hold by computation. *)
Ltac holds :=
  cbn;
  repeat match goal with
    | |- _ /\ _ => split
    end;
  first [ exact I | reflexivity | left; reflexivity | right; reflexivity | assumption ].

(** One step through the constructs of a program. *)
Ltac confine_step :=
  lazymatch goal with
  | |- confined _ _ _ (Ret _) => apply confined_Ret; holds
  | |- confined _ _ _ (Throw _) => apply confined_Throw
  | |- confined _ _ _ (Exit _) => apply confined_Exit
  | |- confined _ _ _ (Vis _ _) =>
      let Ha := fresh "Ha" in
      apply confined_Vis;
      [holds | intros ? Ha; cbn in Ha; try (rewrite Ha; clear Ha)]
  | |- confined _ _ _ (bind (await ?a) _) => destruct a
  | |- confined _ _ _ (try_catch (await ?a) _) => destruct a
  | |- confined _ _ _ (await ?a) => destruct a
  | |- confined ?g ?P _ (bind _ _) =>
      apply (confined_bind g P anything); [| intros ? _]
  | |- confined _ _ _ (try_catch _ _) =>
      apply confined_try_catch; [| intros ?]
  | |- confined _ _ _ (if ?b then _ else _) => destruct b
  | |- confined _ _ _ (match ?x with _ => _ end) => destruct x
  end.

Ltac confine :=
  repeat (cbn -[String.eqb];
          first [ progress (unfold tell, exit, call, invoke, spin)
                | match goal with
                  | |- confined _ _ _ ?p =>
                      match p with
                      | context [await ?a] => is_var a; destruct a
                      end
                  end
                | confine_step ]).

Ltac unfold_runMiniApp :=
  unfold runMiniApp, runMiniApp_sources, runMiniApp_launch,
    generateContainerForRunner, launchAndroidRunner, launchIosRunner,
    buildIosRunner.

(** ** runMiniApp, whatever its inputs *)

Lemma runMiniApp_launch_dev_support (cwd platform : string) napDescriptor
  entryMiniAppName dependenciesObjs miniAppsPaths (dev : option bool) :
  confined any_answer
    (fun c => (dev_support_of c = None \/ dev_support_of c = Some dev)
              /\ is_packager_start c = false)
    anything
    (runMiniApp_launch cwd platform napDescriptor entryMiniAppName
       dependenciesObjs miniAppsPaths dev).
Proof.
  unfold_runMiniApp. confine.
Qed.

Lemma runMiniApp_sources_dev_kept (cwd : string) (o : RunMiniAppOptions) :
  (bool_decide (miniapps o = None) && negb (truthy (descriptor o))
   && bool_decide (dev o = None)) = false ->
  confined any_answer
    (fun c => (dev_support_of c = None \/ dev_support_of c = Some (dev o))
              /\ is_packager_start c = false)
    (fun x => snd x = dev o)
    (runMiniApp_sources cwd o).
Proof.
  destruct o as [main ms ds d dv]. cbn [miniapps descriptor dev].
  unfold runMiniApp_sources. cbn [miniapps descriptor dev dependencies mainMiniAppName].
  destruct ms as [ms |], dv as [dv |], (truthy d) eqn:Hd;
    repeat match goal with
      | |- context [bool_decide ?P] =>
          first [ rewrite (bool_decide_eq_true_2 P) by reflexivity
                | rewrite (bool_decide_eq_false_2 P) by discriminate ]
      end;
    cbn [andb negb]; intros Hs; try discriminate; confine.
Qed.

Lemma runMiniApp_sources_dev_default (cwd : string) (o : RunMiniAppOptions) :
  miniapps o = None -> truthy (descriptor o) = false -> dev o = None ->
  confined any_answer
    (fun c => dev_support_of c = None)
    (fun x => snd x = Some true)
    (runMiniApp_sources cwd o).
Proof.
  destruct o as [main ms ds d dv]. cbn [miniapps descriptor dev].
  intros -> Hd ->.
  unfold runMiniApp_sources. cbn [miniapps descriptor dev dependencies mainMiniAppName].
  rewrite Hd. confine.
Qed.

Lemma confined_weaken given (P P' : ext -> Prop) {A : Type} (Q Q' : A -> Prop)
  (p : prog A) :
  (forall c, P c -> P' c) -> (forall a, Q a -> Q' a) ->
  confined given P Q p -> confined given P' Q' p.
Proof.
  intros HP HQ Hp. induction Hp as [a Ha | e | code | c k Hc Hk IH].
  - constructor. apply HQ, Ha.
  - constructor.
  - constructor.
  - constructor; [apply HP, Hc | exact IH].
Qed.

Lemma runMiniApp_sources_as_asked (cwd platform : string) (o : RunMiniAppOptions) :
  confined any_answer (generates_as_asked platform o) (sources_as_asked o)
    (runMiniApp_sources cwd o).
Proof.
  unfold runMiniApp_sources, sources_as_asked.
  destruct (miniapps o) as [ms |] eqn:Hms.
  - repeat (cbn -[String.eqb truthy];
            first [ progress (unfold tell, exit, call, invoke, spin)
                  | match goal with
                    | |- confined _ _ _ (Ret _) =>
                        apply confined_Ret; cbn -[truthy]; intros _;
                        split; [reflexivity | eexists; reflexivity]
                    end
                  | confine_step ]).
  - destruct (truthy (descriptor o)) eqn:Hd.
    + cbn -[truthy]. apply confined_Ret. intros Hfalse. discriminate Hfalse.
    + repeat (cbn -[String.eqb truthy];
            first [ progress (unfold tell, exit, call, invoke, spin)
                  | match goal with
                    | |- confined _ _ _ (Ret _) =>
                        apply confined_Ret; cbn -[truthy]; intros _;
                        split; [reflexivity | eexists; apply eq_sym, app_nil_r]
                    end
                  | match goal with
                    | |- confined _ _ _ ?p =>
                        match p with
                        | context [await ?a] => is_var a; destruct a
                        end
                    end
                  | confine_step ]).
Qed.

Lemma runMiniApp_launch_as_asked (cwd platform : string) (o : RunMiniAppOptions)
  napDescriptor entryMiniAppName dependenciesObjs miniAppsPaths dev :
  descriptor_as_asked o napDescriptor ->
  (truthy (descriptor o) = false ->
   dependenciesObjs = lodash_map_opt (dependencies o) Dependency_fromString
   /\ exists own,
        miniAppsPaths
        = own ++ lodash_map_opt (miniapps o) DependencyPath_fromString) ->
  confined any_answer (generates_as_asked platform o) anything
    (runMiniApp_launch cwd platform napDescriptor entryMiniAppName
       dependenciesObjs miniAppsPaths dev).
Proof.
  intros Hnap Hsources.
  assert (Hgen : confined any_answer (generates_as_asked platform o) anything
                   (generateContainerForRunner platform napDescriptor
                      dependenciesObjs miniAppsPaths)).
  { unfold generateContainerForRunner.
    destruct napDescriptor as [d |]; cbn in Hnap.
    - destruct Hnap as (s & Hs & Hne & ->).
      unfold call. cbn. apply confined_Vis.
      + cbn. exists s. repeat split; assumption.
      + intros a _. destruct a; cbn; constructor; exact I.
    - destruct (Hsources Hnap) as (-> & own & ->).
      unfold call, spin. cbn. apply confined_Vis.
      + cbn. repeat split; try assumption. exists own. reflexivity.
      + intros a _. confine. }
  unfold runMiniApp_launch.
  repeat (cbn -[String.eqb generateContainerForRunner];
          first [ progress (unfold tell, exit, call, invoke, spin)
                | match goal with
                  | |- confined ?g ?P _ (bind (generateContainerForRunner _ _ _ _) _) =>
                      apply (confined_bind g P anything);
                      [ exact Hgen | intros ? _ ]
                  end
                | match goal with
                  | |- confined _ _ _ ?p =>
                      match p with
                      | context [await ?a] => is_var a; destruct a
                      end
                  end
                | confine_step ]).
  all: unfold launchAndroidRunner, launchIosRunner, buildIosRunner; confine.
Qed.

Section RunMiniAppCalls.
Context {W : Type} (h : handler W).

(** X9. Whatever its inputs and the answers of the environment,
    [runMiniApp] opens, writes, commits and discards no Cauldron
    transaction and publishes no container: every container generation
    it asks for has [publish] disabled. *)
Theorem runMiniApp_never_changes_cauldron
  (platform : string) (o : RunMiniAppOptions) (w : W) :
  Forall (fun x => changes_cauldron (fst x) = false)
    (observed (run h (runMiniApp platform o) w)).
Proof.
  apply (confined_calls h (fun c => changes_cauldron c = false) anything).
  unfold_runMiniApp. confine.
Qed.

(** X10. For a platform that is neither [android] nor [ios], [runMiniApp]
    never returns normally and makes no call of [builds_or_launches]: it
    generates no container, creates or reconfigures no runner project,
    and builds or launches no runner.  The platform is looked at last:
    the packager, which a standalone run without [dev] starts before
    that, is not one of these calls, and is started all the same. *)
Theorem runMiniApp_unsupported_platform
  (platform : string) (o : RunMiniAppOptions) (w : W) :
  platform <> "android" ->
  platform <> "ios" ->
  let r := run h (runMiniApp platform o) w in
  outcome r <> Returned tt
  /\ Forall (fun x => builds_or_launches (fst x) = false) (observed r).
Proof.
  intros Handroid Hios r; subst r.
  apply String.eqb_neq in Handroid, Hios.
  assert (Hc : confined any_answer (fun c => builds_or_launches c = false)
                 nothing (runMiniApp platform o)).
  { unfold_runMiniApp. rewrite Handroid, Hios. confine. }
  split.
  - exact (confined_never_returns h _ _ w tt Hc).
  - exact (confined_calls h _ _ _ w Hc).
Qed.

(** X11. In a standalone run (no MiniApps, no descriptor) without [dev],
    development support is enabled in every runner project that is
    generated or reconfigured; in every other run it is what [dev] says,
    and the packager is not started. *)
Theorem runMiniApp_dev_support
  (platform : string) (o : RunMiniAppOptions) (w : W) :
  let r := run h (runMiniApp platform o) w in
  let standalone_without_dev :=
    bool_decide (miniapps o = None) && negb (truthy (descriptor o))
    && bool_decide (dev o = None) in
  if standalone_without_dev
  then Forall (fun x => dev_support_of (fst x) = None
                        \/ dev_support_of (fst x) = Some (Some true))
         (observed r)
  else Forall (fun x => (dev_support_of (fst x) = None
                         \/ dev_support_of (fst x) = Some (dev o))
                        /\ is_packager_start (fst x) = false)
         (observed r).
Proof.
  intros r standalone_without_dev; subst r standalone_without_dev.
  destruct (_ && _) eqn:Hs.
  - apply andb_prop in Hs as [Hs Hdev]. apply andb_prop in Hs as [Hms Hd].
    apply bool_decide_eq_true_1 in Hms, Hdev. apply negb_true_iff in Hd.
    apply (confined_calls h
             (fun c => dev_support_of c = None
                       \/ dev_support_of c = Some (Some true)) anything).
    unfold runMiniApp. rewrite Hd.
    repeat (cbn -[String.eqb runMiniApp_sources runMiniApp_launch];
            first [ match goal with
                    | |- confined _ _ _ (bind (runMiniApp_sources _ _) _) =>
                        apply (confined_bind any_answer _
                                 (fun x => snd x = Some true));
                        [ apply (confined_weaken any_answer
                                   (fun c => dev_support_of c = None) _
                                   (fun x => snd x = Some true) _);
                          [ intros c Hc; left; exact Hc
                          | intros x Hx; exact Hx
                          | apply runMiniApp_sources_dev_default; assumption ]
                        | intros [[[entry deps] paths] dev'] Hdev';
                          cbn in Hdev'; subst dev';
                          apply (confined_weaken any_answer
                                   (fun c => (dev_support_of c = None
                                              \/ dev_support_of c
                                                 = Some (Some true))
                                             /\ is_packager_start c = false)
                                   _ anything _);
                          [ intros c [Hc _]; exact Hc
                          | intros x Hx; exact Hx
                          | apply runMiniApp_launch_dev_support ] ]
                    end
                  | progress (unfold tell, exit, call, invoke, spin)
                  | confine_step ]).
  - apply (confined_calls h
             (fun c => (dev_support_of c = None
                        \/ dev_support_of c = Some (dev o))
                       /\ is_packager_start c = false) anything).
    unfold runMiniApp.
    repeat (cbn -[String.eqb runMiniApp_sources runMiniApp_launch];
            first [ match goal with
                    | |- confined _ _ _ (bind (runMiniApp_sources _ _) _) =>
                        apply (confined_bind any_answer _
                                 (fun x => snd x = dev o));
                        [ apply runMiniApp_sources_dev_kept; exact Hs
                        | intros [[[entry deps] paths] dev'] Hdev';
                          cbn in Hdev'; subst dev';
                          apply runMiniApp_launch_dev_support ]
                    end
                  | progress (unfold tell, exit, call, invoke, spin)
                  | confine_step ]).
Qed.

(** X12. When the directory of the runner project exists, [runMiniApp]
    creates no directory and generates no runner project: it only
    regenerates the configuration of the existing one.  When it does not
    exist, no configuration is regenerated. *)
Theorem runMiniApp_keeps_existing_runner
  (platform : string) (o : RunMiniAppOptions) (exists_ : bool) (w : W) :
  (forall path w', fst (h (fs_existsSync path) w') = Resolved exists_) ->
  Forall (fun x => if exists_
                   then creates_runner_project (fst x) = false
                   else regenerates_runner_config (fst x) = false)
    (observed (run h (runMiniApp platform o) w)).
Proof.
  intros Hexists.
  apply (confined_run h (runner_exists exists_)
           (fun c => if exists_
                     then creates_runner_project c = false
                     else regenerates_runner_config c = false) anything).
  - intros c w'. destruct c; cbn; try exact I. apply Hexists.
  - unfold_runMiniApp. destruct exists_; confine.
Qed.

(** X13. When [runMiniApp] is given a descriptor and one of its two
    checks (the descriptor is complete, the descriptor exists in the
    Cauldron) fails, the invocation does not return normally and
    no container is generated, no runner project is generated or
    reconfigured and nothing is launched. *)
Theorem runMiniApp_descriptor_check_fails
  (platform : string) (o : RunMiniAppOptions) (d : string)
  (check : EnsureCall) (w : W) :
  descriptor o = Some d ->
  d <> "" ->
  In check (descriptor_checks d) ->
  (forall w', rejection (fst (h (Ensure check) w')) <> None) ->
  let r := run h (runMiniApp platform o) w in
  outcome r <> Returned tt
  /\ Forall (fun x => builds_or_launches (fst x) = false) (observed r).
Proof.
  intros Hd Hne Hin Hfails r; subst r.
  assert (Hc : confined (rejects check)
                 (fun c => builds_or_launches c = false) nothing
                 (runMiniApp platform o)).
  { destruct o as [main ms ds d' dv]. cbn in Hd. subst d'.
    destruct d as [| ch d]; [congruence |].
    unfold runMiniApp.
    cbn [descriptor miniapps dependencies dev mainMiniAppName truthy
         default negb String.eqb andb].
    destruct Hin as [<- | [<- | []]].
    all: repeat (cbn -[String.eqb runMiniApp_sources runMiniApp_launch];
            first [ progress (unfold tell, exit, call, invoke, spin)
                  | match goal with
                    | |- confined _ _ _ (Vis (Ensure _) _) =>
                        let a := fresh "a" in
                        let Ha := fresh "Ha" in
                        apply confined_Vis;
                        [ reflexivity
                        | intros a Ha;
                          first [ destruct a;
                                  [ exfalso; exact (Ha eq_refl eq_refl) | ]
                                | clear Ha ] ]
                    end
                  | match goal with
                    | |- confined _ _ _ ?p =>
                        match p with
                        | context [await ?a] => is_var a; destruct a
                        end
                    end
                  | confine_step ]). }
  assert (Hgiven : forall c w', rejects check c (fst (h c w'))).
  { intros c w' ->. apply Hfails. }
  destruct (confined_run h (rejects check) _ nothing _ w Hgiven Hc)
    as [Hcalls Hret].
  split; [intros Hr; exact (Hret tt Hr) | exact Hcalls].
Qed.

(** X14. When the generation of the container fails, [runMiniApp] does
    not return normally, and it creates, configures, builds and launches
    no runner project: the container comes first. *)
Theorem runMiniApp_generation_failure_stops
  (platform : string) (o : RunMiniAppOptions) (w : W) :
  (forall c w', is_container_generation c = true ->
                rejection (fst (h c w')) <> None) ->
  let r := run h (runMiniApp platform o) w in
  outcome r <> Returned tt
  /\ Forall (fun x => touches_runner (fst x) = false) (observed r).
Proof.
  intros Hfails r; subst r.
  assert (Hc : confined (fails_when is_container_generation)
                 (fun c => touches_runner c = false) nothing
                 (runMiniApp platform o)).
  { unfold runMiniApp, runMiniApp_sources, runMiniApp_launch.
    repeat (cbn -[String.eqb generateContainerForRunner];
            first [ progress (unfold tell, exit, call, invoke, spin)
                  | match goal with
                    | |- confined ?g ?P _ (bind (generateContainerForRunner _ _ _ _) _) =>
                        apply (confined_bind g P nothing);
                        [ unfold generateContainerForRunner
                        | intros ? [] ]
                    | |- confined _ _ _ (Vis _ _) =>
                        let a := fresh "a" in
                        let Ha := fresh "Ha" in
                        apply confined_Vis;
                        [ reflexivity
                        | intros a Ha;
                          first [ destruct a;
                                  [ exfalso; exact (Ha eq_refl eq_refl) | ]
                                | clear Ha ] ]
                    end
                  | match goal with
                    | |- confined _ _ _ ?p =>
                        match p with
                        | context [await ?a] => is_var a; destruct a
                        end
                    end
                  | confine_step ]). }
  destruct (confined_run h (fails_when is_container_generation) _ nothing _ w
              Hfails Hc) as [Hcalls Hret].
  split; [intros Hr; exact (Hret tt Hr) | exact Hcalls].
Qed.

(** X15. The container of the runner is generated from the Cauldron only
    when a descriptor is given: for that descriptor, as version [1.0.0],
    named [runner] and not published.  Otherwise it is generated locally,
    for the platform, as version [1.0.0] and named [runner], with the
    native dependencies that were given and with all the MiniApps that
    were given, after the one of the current directory. *)
Theorem runMiniApp_generates_as_asked
  (platform : string) (o : RunMiniAppOptions) (w : W) :
  Forall (fun x => generates_as_asked platform o (fst x))
    (observed (run h (runMiniApp platform o) w)).
Proof.
  apply (confined_calls h (generates_as_asked platform o) anything).
  assert (Hsome : truthy (descriptor o) = true ->
            descriptor_as_asked o
              (Some (nap_fromString (default "" (descriptor o))))).
  { intros Hd. unfold descriptor_as_asked.
    destruct (descriptor o) as [[| ch s] |]; try discriminate Hd.
    exists (String ch s).
    split; [reflexivity | split; [discriminate | reflexivity]]. }
  unfold runMiniApp.
  destruct (truthy (descriptor o)) eqn:Hd.
  all: repeat (cbn -[String.eqb runMiniApp_sources runMiniApp_launch truthy
                     logErrorAndExitIfNotSatisfied];
          first [ progress (unfold tell, exit, call, invoke)
                | match goal with
                  | |- confined ?g ?P _
                         (bind (bind (logErrorAndExitIfNotSatisfied _) _) _) =>
                      apply (confined_bind g P (descriptor_as_asked o));
                      [ apply (confined_bind g P anything);
                        [ unfold logErrorAndExitIfNotSatisfied, ifPresent,
                            Ensure_sync, Ensure_await; confine
                        | intros ? _; apply confined_Ret; exact (Hsome eq_refl) ]
                      | intros napDescriptor Hnap ]
                  | |- confined ?g ?P _ (bind (runMiniApp_sources _ _) _) =>
                      apply (confined_bind g P (sources_as_asked o));
                      [ apply runMiniApp_sources_as_asked
                      | intros [[[entry deps] paths] dev'] Hsources;
                        apply runMiniApp_launch_as_asked;
                        [ first [ exact Hnap | exact Hd ] | exact Hsources ] ]
                  end
                | confine_step ]).
Qed.

End RunMiniAppCalls.

(** ** launchIosRunner *)

Lemma cons_suffix_answer {A B : Type} (x : A) (l : list A) (s : B -> list A) :
  (exists pre b, l = pre ++ s b) -> exists pre b, x :: l = pre ++ s b.
Proof. intros (pre & b & ->). exists (x :: pre), b. reflexivity. Qed.

Ltac split_suffix_answer :=
  first [ exists []; eexists; reflexivity
        | apply cons_suffix_answer; split_suffix_answer ].

Section LaunchIosRunner.
Context {W : Type} (h : handler W).

(** X16. When a step of [launchIosRunner] fails with [e], the invocation
    throws [e] and that step is the last one of the launch.  A failure
    before the [try] block (selection of the device, shutdown of the
    simulators, boot of the simulator, change of directory) ends no
    spinner; a failure of the build, the installation or the launch of
    the application is followed by [spinner.fail(e.message)] only. *)
Theorem launchIosRunner_failure
  (pathToIosRunner : string) (w : W) (c : ext) (e : JsError) :
  let r := run h (launchIosRunner pathToIosRunner) w in
  In (c, Some e) (observed r) ->
  (is_ios_unguarded_step c = true ->
   outcome r = Threw e
   /\ (exists pre, observed r = pre ++ [(c, Some e)])
   /\ Forall (fun x => is_spinner_end (fst x) = false) (observed r))
  /\ (is_ios_guarded_step c = true ->
      outcome r = Threw e
      /\ exists pre answer,
           observed r
           = pre ++ [(c, Some e); (spinner_fail (err_message e), answer)]).
Proof.
  intros r; subst r.
  unfold launchIosRunner, buildIosRunner, observed, outcome, calls.
  cbn. answer_calls h.
  all: intros Hin; in_trace Hin.
  all: split; intros Hstep; try discriminate Hstep.
  all: split; [reflexivity |].
  all: first [ split; [split_suffix | repeat constructor]
             | split_suffix_answer ].
Qed.


End LaunchIosRunner.

(** ** The descriptor strings and the prompt *)

Lemma napDescriptorString_passes (o : NapFilter) (app : NativeApp)
  (p : NativeAppPlatform) (v : NativeAppVersion) :
  napDescriptorString_or_undefined o app p v =
  if passes_filters o p v then JStr (descriptor_string app p v) else JUndefined.
Proof.
  unfold napDescriptorString_or_undefined, passes_filters, descriptor_string.
  destruct (_ || _); [| reflexivity].
  destruct (_ || _); reflexivity.
Qed.

Lemma defined_strings_of_versions (o : NapFilter) (app : NativeApp)
  (p : NativeAppPlatform) (vs : list NativeAppVersion) :
  List.filter is_defined (map (napDescriptorString_or_undefined o app p) vs) =
  map JStr
    (flat_map (fun v => if passes_filters o p v
                        then [descriptor_string app p v] else []) vs).
Proof.
  induction vs as [| v vs IH]; [reflexivity |].
  cbn [map List.filter flat_map]. rewrite napDescriptorString_passes.
  destruct (passes_filters o p v); cbn; rewrite IH; reflexivity.
Qed.

Lemma defined_strings_of_platforms (o : NapFilter) (app : NativeApp)
  (ps : list NativeAppPlatform) :
  List.filter is_defined
    (flat_map flattenDeep_elt
       (map (fun p => JArr (map (napDescriptorString_or_undefined o app p)
                                  (versions p))) ps)) =
  map JStr
    (flat_map (fun p =>
       flat_map (fun v => if passes_filters o p v
                          then [descriptor_string app p v] else [])
         (versions p)) ps).
Proof.
  induction ps as [| p ps IH]; [reflexivity |].
  cbn [map flat_map].
  rewrite flattenDeep_elt_JArr.
  rewrite flat_map_leaves by (intros; apply leaf_napDescriptorString).
  rewrite List.filter_app, IH, defined_strings_of_versions, List.map_app.
  reflexivity.
Qed.

(** The nested maps, flattened and filtered, are a comprehension over the
    versions of the store. *)
Lemma napDescriptorStrings_listed (o : NapFilter) (apps : list NativeApp) :
  napDescriptorStrings o apps = JArr (map JStr (listed o apps)).
Proof.
  unfold napDescriptorStrings, lodash_filter, lodash_flattenDeep, listed,
    lodash_map.
  rewrite flattenDeep_elt_JArr. f_equal.
  induction apps as [| app apps IH]; [reflexivity |].
  cbn [map flat_map].
  rewrite List.filter_app, IH, List.map_app. f_equal.
  rewrite flattenDeep_elt_JArr.
  apply defined_strings_of_platforms.
Qed.

Lemma in_listed (o : NapFilter) (apps : list NativeApp) (s : string) :
  In s (listed o apps) <->
  exists app p v,
    In app apps /\ In p (platforms app) /\ In v (versions p)
    /\ passes_filters o p v = true /\ s = descriptor_string app p v.
Proof.
  unfold listed. split.
  - intros Hin.
    apply in_flat_map in Hin as (app & Happ & Hin).
    apply in_flat_map in Hin as (p & Hp & Hin).
    apply in_flat_map in Hin as (v & Hv & Hin).
    destruct (passes_filters o p v) eqn:Hpass; [| contradiction].
    destruct Hin as [<- | []].
    exists app, p, v. repeat split; assumption.
  - intros (app & p & v & Happ & Hp & Hv & Hpass & ->).
    apply in_flat_map. exists app. split; [exact Happ |].
    apply in_flat_map. exists p. split; [exact Hp |].
    apply in_flat_map. exists v. split; [exact Hv |].
    rewrite Hpass. left. reflexivity.
Qed.

Section Prompts.
Context {W : Type} (h : handler W).

(** X18. When the store resolves to [apps], the function returns the
    strings [name:platform:version] of exactly the versions of [apps] that
    pass the filters (the platform, when one is given, and the release
    status), in the order of the store: a string is returned if and only
    if it is the string of such a version. *)
Theorem napDescriptorStrings_exactly_the_filtered_versions
  (o : NapFilter) (w : W) (apps : list NativeApp) :
  fst (h cauldron_getAllNativeApps w) = Resolved apps ->
  let r := run h (getNapDescriptorStringsFromCauldron o) w in
  outcome r = Returned (JArr (map JStr (listed o apps)))
  /\ forall s,
       In s (listed o apps) <->
       exists app p v,
         In app apps /\ In p (platforms app) /\ In v (versions p)
         /\ ((filter_platform o = None \/ filter_platform o = Some ""
              \/ filter_platform o = Some (platform_name p))
             /\ (if isReleased v
                 then onlyNonReleasedVersions o <> Some true
                 else onlyReleasedVersions o <> Some true))
         /\ s = app_name app +:+ ":" +:+ platform_name p +:+ ":"
                +:+ version_name v.
Proof.
  intros Hget r; subst r. split.
  - unfold getNapDescriptorStringsFromCauldron, outcome.
    cbn -[napDescriptorStrings].
    destruct (h cauldron_getAllNativeApps w) as [a w1]. cbn in Hget. subst a.
    cbn -[napDescriptorStrings]. rewrite napDescriptorStrings_listed.
    reflexivity.
  - intros s. rewrite in_listed.
    assert (Hpass : forall p v,
      passes_filters o p v = true <->
      (filter_platform o = None \/ filter_platform o = Some ""
       \/ filter_platform o = Some (platform_name p))
      /\ (if isReleased v
          then onlyNonReleasedVersions o <> Some true
          else onlyReleasedVersions o <> Some true)).
    { intros p v. unfold passes_filters.
      rewrite andb_true_iff, !orb_true_iff, !andb_true_iff, !negb_true_iff.
      rewrite bool_decide_eq_true.
      assert (Hflag : forall b, flag b = false <-> b <> Some true).
      { intros [[|] |]; cbn; split; congruence. }
      rewrite !Hflag.
      assert (Htruthy : truthy (filter_platform o) = false
                        <-> filter_platform o = None
                            \/ filter_platform o = Some "").
      { destruct (filter_platform o) as [[| c s0] |]; cbn; split;
          try congruence; try tauto;
          intros [Hx | Hx]; congruence. }
      rewrite Htruthy.
      destruct (isReleased v); split.
      - intros [Hp [[_ Hr] | [Hx _]]]; [tauto | discriminate].
      - intros [Hp Hr]. split; [tauto | left; split; [reflexivity | exact Hr]].
      - intros [Hp [[Hx _] | [_ Hr]]]; [discriminate | tauto].
      - intros [Hp Hr]. split; [tauto | right; split; [reflexivity | exact Hr]]. }
    split.
    + intros (app & p & v & Happ & Hp & Hv & Hf & ->).
      exists app, p, v. apply Hpass in Hf.
      repeat split; try assumption; apply Hf.
    + intros (app & p & v & Happ & Hp & Hv & Hf & ->).
      exists app, p, v. apply Hpass in Hf.
      repeat split; assumption.
Qed.

(** X19. [askUserToChooseANapDescriptorFromCauldron] asks one question,
    a list whose choices are the descriptor strings of the versions of
    the store that pass the filters, in the order of the store, and
    returns the answer [userSelectedCompleteNapDescriptor]; when the store
    cannot be read it throws the error of the store and asks nothing. *)
Theorem askUser_offers_the_filtered_versions
  (inquirer_prompt : list Question -> prog Answers) (o : NapFilter) (w : W) :
  let r := run h (askUserToChooseANapDescriptorFromCauldron inquirer_prompt o) w in
  match fst (h cauldron_getAllNativeApps w) with
  | Rejected e =>
      outcome r = Threw e /\ observed r = [(cauldron_getAllNativeApps, Some e)]
  | Resolved apps =>
      let asked :=
        run h
          (inquirer_prompt
             [mkQuestion "list" "userSelectedCompleteNapDescriptor"
                "Choose a native application version"
                (Some (JArr (map JStr (listed o apps)))) None])
          (snd (h cauldron_getAllNativeApps w)) in
      outcome r
      = match outcome asked with
        | Returned answers =>
            Returned (answer_of "userSelectedCompleteNapDescriptor" answers)
        | Threw e => Threw e
        | Exited code => Exited code
        end
      /\ observed r = (cauldron_getAllNativeApps, None) :: observed asked
  end.
Proof.
  intros r; subst r.
  unfold askUserToChooseANapDescriptorFromCauldron,
    getNapDescriptorStringsFromCauldron.
  unfold outcome, observed, calls. cbn -[napDescriptorStrings].
  destruct (h cauldron_getAllNativeApps w) as [[apps | e] w1];
    cbn -[napDescriptorStrings]; [| split; reflexivity].
  rewrite run_bind, napDescriptorStrings_listed.
  destruct (run h (inquirer_prompt _) w1) as [[[answers | e | code] w2] tr];
    cbn; try (split; reflexivity).
  rewrite app_nil_r. split; reflexivity.
Qed.

(** X20. [doesPackageExistInNpm] never throws: when [yarn.info] fails it
    returns [false]; it returns [true] only when [yarn.info] resolves to
    a result of type [inspect]; and it makes the calls of [yarn.info] and
    no other. *)
Theorem doesPackageExistInNpm_never_throws
  (yarn_info : DependencyPath -> string -> bool -> prog (option YarnResult))
  (packageName : string) (w : W) :
  let asked :=
    run h (yarn_info (DependencyPath_fromString packageName) "versions" true) w in
  let r := run h (doesPackageExistInNpm yarn_info packageName) w in
  outcome r
  = match outcome asked with
    | Returned (Some result) =>
        Returned (bool_decide (result_type result = Some "inspect"))
    | Returned None => Returned false
    | Threw _ => Returned false
    | Exited code => Exited code
    end
  /\ observed r = observed asked
  /\ final r = final asked.
Proof.
  intros asked r; subst asked r.
  unfold doesPackageExistInNpm.
  rewrite run_bind, run_try_catch, run_bind.
  unfold outcome, observed, calls, final.
  destruct (run h (yarn_info _ _ _) w) as [[[[result |] | e | code] w1] tr];
    cbn; rewrite ?app_nil_r; try (repeat split; reflexivity).
  destruct (bool_decide _); cbn; rewrite ?app_nil_r; repeat split; reflexivity.
Qed.

(** X21. In an invocation of [logErrorAndExitIfNotSatisfied] in which
    no call of the spinner or of [process.exit] throws (only checks fail,
    with an error), nothing is thrown: either no check failed and the
    invocation returns, or a check failed and the process exits with
    status 1.  It calls nothing but the spinner, the checks and
    [process.exit]. *)
Theorem checker_returns_or_exits (p : Preconditions) (w : W) :
  let r := run h (logErrorAndExitIfNotSatisfied p) w in
  Forall (fun x => is_ensure (fst x) = false -> snd x = None) (observed r) ->
  ((outcome r = Returned tt
    /\ Forall (fun x => snd x = None) (ensure_calls (observed r)))
   \/ (outcome r = Exited 1
       /\ exists c e, In (c, Some e) (ensure_calls (observed r))))
  /\ Forall (fun x => is_checker_call (fst x) = true) (observed r).
Proof.
  intros r _; subst r. split.
  - rewrite logErrorAndExitIfNotSatisfied_checkPreconditions.
    pose proof (run_checkPreconditions h (checks_in_order p) w) as Hr.
    cbv zeta in Hr.
    destruct Hr as [(Ho & Hc & _)
                   | (n & c & e & pre & a1 & a2 & Ho & Hn & Hc & Htr)].
    + left. split; [exact Ho |]. rewrite Hc.
      apply List.Forall_forall. intros x Hx.
      apply in_map_iff in Hx as (y & <- & _). reflexivity.
    + right. split; [exact Ho |]. exists c, e. rewrite Hc.
      apply in_or_app. right. left. reflexivity.
  - apply (confined_calls h (fun c => is_checker_call c = true) anything).
    unfold logErrorAndExitIfNotSatisfied, ifPresent, Ensure_sync, Ensure_await.
    confine.
Qed.

End Prompts.

(** ** epilog *)

Lemma lodash_indexOf_found (before : list string) (value : string)
  (rest : list string) :
  ~ In value before ->
  lodash_indexOf (before ++ value :: rest) value = Z.of_nat (length before).
Proof.
  induction before as [| x before IH]; intros Hnot.
  - cbn. rewrite String.eqb_refl. reflexivity.
  - cbn [app lodash_indexOf length].
    destruct (String.eqb_spec x value) as [-> | Hne].
    + exfalso. apply Hnot. left. reflexivity.
    + rewrite IH by (intros Hin; apply Hnot; right; exact Hin).
      destruct (Z.ltb_spec (Z.of_nat (length before)) 0); lia.
Qed.

Lemma lodash_indexOf_absent (array : list string) (value : string) :
  ~ In value array -> lodash_indexOf array value = (-1)%Z.
Proof.
  induction array as [| x array IH]; intros Hnot; [reflexivity |].
  cbn [lodash_indexOf].
  destruct (String.eqb_spec x value) as [-> | Hne].
  - exfalso. apply Hnot. left. reflexivity.
  - rewrite IH by (intros Hin; apply Hnot; right; exact Hin). reflexivity.
Qed.

Lemma lodash_slice_between {A : Type} (before middle after : list A) :
  lodash_slice (before ++ middle ++ after)
    (Z.of_nat (length before)) (Z.of_nat (length before + length middle))
  = middle.
Proof.
  unfold lodash_slice. rewrite !length_app.
  destruct (Z.ltb_spec (Z.of_nat (length before)) 0); [lia |].
  destruct (Z.ltb_spec
              (Z.of_nat (length before + (length middle + length after)))
              (Z.of_nat (length before + length middle))); [lia |].
  destruct (Z.ltb_spec (Z.of_nat (length before + length middle)) 0); [lia |].
  destruct (Z.ltb_spec (Z.of_nat (length before + length middle))
              (Z.of_nat (length before))); [lia |].
  rewrite Nat2Z.id.
  replace (Z.to_nat (Z.of_nat (length before + length middle)
                     - Z.of_nat (length before))) with (length middle) by lia.
  rewrite skipn_app, skipn_all, Nat.sub_diag. change ([] ++ skipn 0 (middle ++ after)) with (middle ++ after).
  rewrite firstn_app, firstn_all, Nat.sub_diag. cbn [firstn].
  apply app_nil_r.
Qed.

Lemma lodash_slice_to_minus_1 {A : Type} (array : list A) :
  lodash_slice array 2 (-1) = removelast (skipn 2 array).
Proof.
  unfold lodash_slice. cbv zeta.
  change (2 <? 0)%Z with false. cbv iota.
  destruct (Z.ltb_spec (Z.of_nat (length array)) (-1)); [lia |].
  change (-1 <? 0)%Z with true. cbv iota.
  change (Z.to_nat 2) with 2%nat.
  rewrite removelast_firstn_len, length_skipn.
  destruct (Z.ltb_spec (-1 + Z.of_nat (length array)) 2).
  - change (Z.to_nat 0) with 0%nat.
    replace (Init.Nat.pred (length array - 2)) with 0%nat by lia.
    reflexivity.
  - f_equal. lia.
Qed.

(** X22. When the arguments of the process are the two of the
    interpreter and of the script, then the commands [path] that lead to
    this one, then the first word of [command], the documentation link is
    the root URL, the commands of [path] separated by [/] and the word
    with the suffix [.html]; the arguments after the word do not count. *)
Theorem epilog_links_to_command_page
  (chalk_bold : string -> string) (node script : string)
  (path rest : list string) (command : string) :
  let word := first_word command in
  ~ In word (node :: script :: path) ->
  epilog chalk_bold (node :: script :: path ++ word :: rest) command
  = "More info about this command @ "
    +:+ chalk_bold
          (rootUrl
           +:+ (if String.eqb (join "/" path) "" then ""
                else "/" +:+ join "/" path)
           +:+ "/" +:+ word +:+ ".html").
Proof.
  intros word Hnot. unfold epilog. fold word.
  change (node :: script :: path ++ word :: rest)
    with ([node; script] ++ path ++ word :: rest).
  rewrite app_assoc, lodash_indexOf_found
    by (intros Hin; apply Hnot; apply in_app_or in Hin as [Hin | Hin];
        [ destruct Hin as [<- | [<- | []]];
          [left; reflexivity | right; left; reflexivity]
        | right; right; exact Hin ]).
  rewrite <- app_assoc, length_app.
  assert (Hslice :
    lodash_slice ([node; script] ++ path ++ word :: rest) 2
      (Z.of_nat (length [node; script] + length path)) = path)
    by exact (lodash_slice_between [node; script] path (word :: rest)).
  rewrite Hslice.
  destruct (String.eqb (join "/" path) ""); reflexivity.
Qed.

(** X23. When the first word of [command] is not among the arguments
    of the process, [_.indexOf] gives [-1] and the link is built from all
    the arguments after the second one but the last. *)
Theorem epilog_command_not_in_arguments
  (chalk_bold : string -> string) (process_argv : list string)
  (command : string) :
  let word := first_word command in
  let path := removelast (skipn 2 process_argv) in
  ~ In word process_argv ->
  epilog chalk_bold process_argv command
  = "More info about this command @ "
    +:+ chalk_bold
          (rootUrl
           +:+ (if String.eqb (join "/" path) "" then ""
                else "/" +:+ join "/" path)
           +:+ "/" +:+ word +:+ ".html").
Proof.
  intros word path Hnot. unfold epilog. fold word.
  rewrite lodash_indexOf_absent by exact Hnot.
  rewrite lodash_slice_to_minus_1. fold path.
  destruct (String.eqb (join "/" path) ""); reflexivity.
Qed.

(** ** The list of the Cauldron repositories *)

Lemma property_of_entry (repositories : list (string * string))
  (alias url : string) :
  List.NoDup (map fst repositories) ->
  In (alias, url) repositories ->
  property alias repositories = Some url.
Proof.
  induction repositories as [| [k v] repositories IH]; intros Hnodup Hin;
    [contradiction |].
  cbn [map fst] in Hnodup. inversion Hnodup as [| x l Hk Hrest]; subst.
  cbn [property]. destruct Hin as [Heq | Hin].
  - inversion Heq; subst. rewrite String.eqb_refl. reflexivity.
  - destruct (String.eqb_spec k alias) as [-> | Hne].
    + exfalso. apply Hk. apply in_map_iff. exists (alias, url).
      split; [reflexivity | exact Hin].
    + apply IH; assumption.
Qed.

Lemma forEach_map {A B : Type} (g : A -> B) (array : list A)
  (f : B -> prog unit) :
  forEach (map g array) f = forEach array (fun x => f (g x)).
Proof.
  induction array as [| x array IH]; [reflexivity |].
  cbn [map forEach]. rewrite IH. reflexivity.
Qed.

Section ListRepositories.
Context {W : Type} (h : handler W).

(** Logging the lines of a list: all of them, or those up to the first
    one that [log.info] throws on. *)
Lemma run_forEach_log_info (lines : list string) (w : W) :
  let r := run h (forEach lines (fun s => invoke (log_info s))) w in
  (outcome r = Returned tt
   /\ observed r = map (fun s => (log_info s, None)) lines)
  \/ (exists n s e,
        nth_error lines n = Some s
        /\ outcome r = Threw e
        /\ observed r
           = map (fun s => (log_info s, None)) (firstn n lines)
             ++ [(log_info s, Some e)]).
Proof.
  revert w. induction lines as [| s lines IH]; intros w;
    [left; split; reflexivity |].
  cbn [forEach]. unfold invoke at 1. cbn.
  destruct (h (log_info s) w) as [[[] | e] w1]; cbn.
  - specialize (IH w1). cbv zeta in IH. unfold outcome, observed, calls in *.
    destruct (run h (forEach lines _) w1) as [[o w2] tr]. cbn in *.
    destruct IH as [[-> ->] | (n & s' & e & Hn & -> & ->)].
    + left. split; reflexivity.
    + right. exists (S n), s', e. repeat split. exact Hn.
  - right. exists 0%nat, s, e. repeat split.
Qed.

(** X24. Without a value of [cauldronRepositories] in the configuration
    the command throws and logs nothing.  With one, it logs the title and
    then one line [alias -> repository] for every repository, in the
    order of the keys of the object: when no call of [log.info] throws it
    returns after all of them; when one throws, the command throws the
    same error and logs nothing more. *)
Theorem commandHandler_lists_every_repository
  (cauldronRepositories : option (list (string * string))) (w : W) :
  let r := run h (commandHandler cauldronRepositories) w in
  match cauldronRepositories with
  | None =>
      outcome r = Threw (new_Error "No Cauldron repositories have been added yet")
      /\ observed r = []
  | Some repositories =>
      List.NoDup (map fst repositories) ->
      (exists n, map fst (observed r) = firstn n (repository_lines repositories))
      /\ (Forall (fun x => snd x = None) (observed r) ->
          outcome r = Returned tt
          /\ map fst (observed r) = repository_lines repositories)
      /\ (forall c e,
            In (c, Some e) (observed r) ->
            outcome r = Threw e
            /\ exists pre, observed r = pre ++ [(c, Some e)])
  end.
Proof.
  intros r; subst r.
  destruct cauldronRepositories as [repositories |]; [| split; reflexivity].
  intros Hnodup.
  set (lines := "[Cauldron Repositories]"
                :: map (fun entry => fst entry +:+ " -> " +:+ snd entry)
                     repositories).
  assert (Hlines : repository_lines repositories = map log_info lines).
  { unfold repository_lines, lines. cbn [map]. rewrite map_map. reflexivity. }
  assert (Hprog : commandHandler (Some repositories)
                  = forEach lines (fun s => invoke (log_info s))).
  { unfold commandHandler, lines. cbn [forEach].
    assert (Hsame : forall keys,
              (forall k, In k keys -> In k repositories) ->
              forEach (map fst keys)
                (fun alias => invoke (log_info (alias +:+ " -> "
                   +:+ template_string (property alias repositories))))
              = forEach keys
                  (fun x => invoke (log_info (fst x +:+ " -> " +:+ snd x)))).
    { induction keys as [| [alias url] keys IH]; intros Hin; [reflexivity |].
      cbn [map forEach fst snd].
      rewrite (property_of_entry repositories alias url Hnodup
                 (Hin _ (or_introl eq_refl))).
      rewrite IH by (intros k Hk; apply Hin; right; exact Hk).
      reflexivity. }
    rewrite (Hsame repositories (fun k Hk => Hk)).
    rewrite (forEach_map (fun entry => fst entry +:+ " -> " +:+ snd entry)
               repositories).
    reflexivity. }
  rewrite Hprog, Hlines.
  destruct (run_forEach_log_info lines w)
    as [[Ho Htr] | (n & s & e & Hn & Ho & Htr)]; rewrite Ho, Htr.
  - assert (Hfst : map fst (map (fun s => (log_info s, (None : option JsError))) lines)
                   = map log_info lines) by (rewrite map_map; reflexivity).
    split; [| split].
    + exists (length (map log_info lines)). rewrite firstn_all. exact Hfst.
    + intros _. split; [reflexivity | exact Hfst].
    + intros c e Hin. apply in_map_iff in Hin as (x & Hx & _). discriminate Hx.
  - assert (Hfst : map fst (map (fun s => (log_info s, (None : option JsError)))
                              (firstn n lines) ++ [(log_info s, Some e)])
                   = firstn (S n) (map log_info lines)).
    { rewrite map_app, map_map. cbn [map fst].
      rewrite (firstn_nth_error (map log_info lines) n (log_info s))
        by (rewrite nth_error_map, Hn; reflexivity).
      rewrite firstn_map. reflexivity. }
    split; [| split].
    + exists (S n). exact Hfst.
    + intros Hall. exfalso. apply Forall_app in Hall as [_ Hlast].
      inversion Hlast as [| x0 l0 Hx0 _]; subst. discriminate Hx0.
    + intros c e0 Hin. apply in_app_or in Hin as [Hin | [Hin | []]].
      * apply in_map_iff in Hin as (x & Hx & _). discriminate Hx.
      * inversion Hin; subst. split; [reflexivity |].
        eexists. reflexivity.
Qed.

End ListRepositories.

(** ** The theorems on the workstation *)

Section WorkstationInstances.
Import CauldronModel.

Ltac found := repeat first [ left; reflexivity | right ].

(** A platform that does not exist: the packager is started, and nothing
    is generated or launched. *)
Lemma runMiniApp_unsupported_platform_witness :
  let r := run (Workstation.answer false)
             (runMiniApp "windows" Workstation.standalone) scenario in
  outcome r = Threw (new_Error "Unsupported platform : windows")
  /\ In (reactnative_startPackagerInNewWindow "/home/dev/MyMiniApp", None)
       (observed r)
  /\ outcome r <> Returned tt
  /\ Forall (fun x => builds_or_launches (fst x) = false) (observed r).
Proof.
  intros r. split; [reflexivity |]. split; [vm_compute; found |].
  exact (runMiniApp_unsupported_platform (Workstation.answer false) "windows"
           Workstation.standalone scenario
           ltac:(discriminate) ltac:(discriminate)).
Defined.

(** The Android runner project exists: its configuration is regenerated
    and the project is launched. *)
Lemma runMiniApp_keeps_existing_runner_witness :
  let r := run (Workstation.answer true)
             (runMiniApp "android" Workstation.standalone) scenario in
  (forall path w',
     fst (Workstation.answer true (fs_existsSync path) w') = Resolved true)
  /\ outcome r = Returned tt
  /\ Forall (fun x => creates_runner_project (fst x) = false) (observed r).
Proof.
  intros r.
  assert (Hexists : forall path w',
            fst (Workstation.answer true (fs_existsSync path) w')
            = Resolved true) by (intros; reflexivity).
  split; [exact Hexists | split; [reflexivity |]].
  exact (runMiniApp_keeps_existing_runner (Workstation.answer true) "android"
           Workstation.standalone true scenario Hexists).
Defined.

(** The descriptor is complete but not in the Cauldron: the process
    exits. *)
Lemma runMiniApp_descriptor_check_fails_witness :
  let d := "MyApp:android:1.0.0" in
  let check :=
    Ensure_napDescritorExistsInCauldron d
      (Some "You cannot create a Runner for a non existing native application version.") in
  let r := run Workstation.unknown_descriptor
             (runMiniApp "android" Workstation.for_descriptor) scenario in
  In check (descriptor_checks d)
  /\ (forall w',
        rejection (fst (Workstation.unknown_descriptor (Ensure check) w'))
        <> None)
  /\ outcome r = Exited 1
  /\ outcome r <> Returned tt
  /\ Forall (fun x => builds_or_launches (fst x) = false) (observed r).
Proof.
  intros d check r.
  assert (Hin : In check (descriptor_checks d)) by (right; left; reflexivity).
  assert (Hfails : forall w',
            rejection (fst (Workstation.unknown_descriptor (Ensure check) w'))
            <> None) by (intros w'; discriminate).
  split; [exact Hin | split; [exact Hfails | split; [reflexivity |]]].
  exact (runMiniApp_descriptor_check_fails Workstation.unknown_descriptor
           "android" Workstation.for_descriptor d check scenario
           eq_refl ltac:(discriminate) Hin Hfails).
Defined.

(** No container can be generated: the error of the generator is thrown
    and the runner is left alone. *)
Lemma runMiniApp_generation_failure_stops_witness :
  let r := run Workstation.broken_generator
             (runMiniApp "android" Workstation.standalone) scenario in
  (forall c w', is_container_generation c = true ->
                rejection (fst (Workstation.broken_generator c w')) <> None)
  /\ outcome r = Threw (new_Error "Container generation failed")
  /\ outcome r <> Returned tt
  /\ Forall (fun x => touches_runner (fst x) = false) (observed r).
Proof.
  intros r.
  assert (Hfails : forall c w', is_container_generation c = true ->
            rejection (fst (Workstation.broken_generator c w')) <> None).
  { intros c w' Hc. destruct c; try discriminate Hc; discriminate. }
  split; [exact Hfails | split; [reflexivity |]].
  exact (runMiniApp_generation_failure_stops Workstation.broken_generator
           "android" Workstation.standalone scenario Hfails).
Defined.

(** [xcodebuild] fails: the spinner fails with the message and the error
    is thrown. *)
Lemma launchIosRunner_failure_witness :
  let r := run Workstation.broken_build (launchIosRunner "/work/ios") scenario in
  let c := xcodebuild "/work/ios" "iPhone 7" in
  let e := new_Error "XCode xcbuild command failed with exit code 65" in
  In (c, Some e) (observed r)
  /\ is_ios_guarded_step c = true
  /\ outcome r = Threw e
  /\ exists pre answer,
       observed r
       = pre ++ [(c, Some e); (spinner_fail (err_message e), answer)].
Proof.
  intros r c e.
  assert (Hin : In (c, Some e) (observed r)) by (vm_compute; found).
  assert (Hstep : is_ios_guarded_step c = true) by reflexivity.
  split; [exact Hin | split; [exact Hstep |]].
  exact (proj2 (launchIosRunner_failure Workstation.broken_build "/work/ios"
                  scenario c e Hin) Hstep).
Defined.


(** The released versions for Android of the store of the scenario. *)
Lemma napDescriptorStrings_exactly_the_filtered_versions_witness :
  fst (answer succeeding cauldron_getAllNativeApps scenario)
  = Resolved (nativeApps scenario)
  /\ outcome (run (answer succeeding)
                (getNapDescriptorStringsFromCauldron Workstation.released_android)
                scenario)
     = Returned (JArr [JStr "MyApp:android:1.0.0"]).
Proof.
  assert (Hget : fst (answer succeeding cauldron_getAllNativeApps scenario)
                 = Resolved (nativeApps scenario)) by reflexivity.
  split; [exact Hget |].
  exact (proj1 (napDescriptorStrings_exactly_the_filtered_versions
                  (answer succeeding) Workstation.released_android scenario
                  (nativeApps scenario) Hget)).
Defined.

(** [ern cauldron repo list --verbose]. *)
Lemma epilog_links_to_command_page_witness :
  ~ In (first_word "list") ["node"; "ern"; "cauldron"; "repo"]
  /\ epilog (fun s => s)
       ["node"; "ern"; "cauldron"; "repo"; "list"; "--verbose"] "list"
     = "More info about this command @ https://electrode.gitbooks.io/electrode-native/content/cli/cauldron/repo/list.html".
Proof.
  assert (Hnot : ~ In (first_word "list") ["node"; "ern"; "cauldron"; "repo"]).
  { intros [H | [H | [H | [H | []]]]]; discriminate H. }
  split; [exact Hnot |].
  exact (epilog_links_to_command_page (fun s => s) "node" "ern"
           ["cauldron"; "repo"] ["--verbose"] "list" Hnot).
Defined.

(** [ern cauldron repo ls] for the command [list]: the last argument is
    left out of the link. *)
Lemma epilog_command_not_in_arguments_witness :
  ~ In (first_word "list") ["node"; "ern"; "cauldron"; "repo"; "ls"]
  /\ epilog (fun s => s) ["node"; "ern"; "cauldron"; "repo"; "ls"] "list"
     = "More info about this command @ https://electrode.gitbooks.io/electrode-native/content/cli/cauldron/repo/list.html".
Proof.
  assert (Hnot : ~ In (first_word "list")
                   ["node"; "ern"; "cauldron"; "repo"; "ls"]).
  { intros [H | [H | [H | [H | [H | []]]]]]; discriminate H. }
  split; [exact Hnot |].
  exact (epilog_command_not_in_arguments (fun s => s)
           ["node"; "ern"; "cauldron"; "repo"; "ls"] "list" Hnot).
Defined.

(** Two repositories and a logger that does not throw. *)
Lemma commandHandler_lists_every_repository_witness :
  let r := run (Workstation.answer false)
             (commandHandler (Some Workstation.repositories)) scenario in
  List.NoDup (map fst Workstation.repositories)
  /\ Forall (fun x => snd x = None) (observed r)
  /\ outcome r = Returned tt
  /\ map fst (observed r)
     = [log_info "[Cauldron Repositories]";
        log_info "main -> git@github.com:company/cauldron.git";
        log_info "staging -> git@github.com:company/cauldron-staging.git"].
Proof.
  intros r.
  assert (Hnodup : List.NoDup (map fst Workstation.repositories)).
  { apply List.NoDup_cons; [intros [H | []]; discriminate H |].
    apply List.NoDup_cons; [intros [] | apply List.NoDup_nil]. }
  assert (Hall : Forall (fun x => snd x = None) (observed r))
    by (vm_compute; repeat constructor).
  split; [exact Hnodup | split; [exact Hall |]].
  destruct (commandHandler_lists_every_repository (Workstation.answer false)
              (Some Workstation.repositories) scenario Hnodup)
    as (_ & Hreturns & _).
  exact (Hreturns Hall).
Defined.

(** No Cauldron is active: the check fails, the spinner reports it and
    the process exits. *)
Lemma checker_returns_or_exits_witness :
  let r := run (answer succeeding)
             (logErrorAndExitIfNotSatisfied active_and_complete) unreachable in
  Forall (fun x => is_ensure (fst x) = false -> snd x = None) (observed r)
  /\ outcome r = Exited 1
  /\ Forall (fun x => is_checker_call (fst x) = true) (observed r).
Proof.
  intros r.
  assert (Hquiet : Forall (fun x => is_ensure (fst x) = false -> snd x = None)
                     (observed r)).
  { vm_compute.
    repeat (constructor;
            [first [intros _; reflexivity | intros H; discriminate H] |]).
    constructor. }
  split; [exact Hquiet | split; [reflexivity |]].
  exact (proj2 (checker_returns_or_exits (answer succeeding)
                  active_and_complete unreachable Hquiet)).
Defined.

(** The user is offered the versions of the store and picks the first. *)
Example ask_user_on_scenario :
  outcome (run (Workstation.answer false)
             (askUserToChooseANapDescriptorFromCauldron Workstation.picks_first
                (mkNapFilter None None None))
             scenario)
  = Returned (Some (AnswerStr "MyApp:android:1.0.0")).
Proof. reflexivity. Qed.

(** The registry cannot be reached: the package is taken as not
    published. *)
Example package_lookup_when_registry_down :
  outcome (run (Workstation.answer false)
             (doesPackageExistInNpm Workstation.registry_down "react-native")
             scenario)
  = Returned false.
Proof. reflexivity. Qed.

(** A standalone run for Android on a workstation without a runner
    project. *)
Example standalone_android_run :
  map fst (observed (run (Workstation.answer false)
                       (runMiniApp "android" Workstation.standalone) scenario))
  = [process_cwd; MiniApp_fromCurrentPath;
     log_debug "This command is being run from the MyMiniApp MiniApp directory.";
     log_debug "Initializing Runner";
     reactnative_startPackagerInNewWindow "/home/dev/MyMiniApp";
     runLocalContainerGen
       [DependencyPath_fromFileSystemPath "/home/dev/MyMiniApp"] "android"
       "1.0.0" "runner" [];
     spin_start "Generating Container locally";
     fs_existsSync "/home/dev/MyMiniApp/android";
     shell_mkdir "/home/dev/MyMiniApp/android";
     generateAndroidRunnerProject "/home/dev/MyMiniApp/android" "MyMiniApp"
       (Some true);
     spin_start "Generating Android Runner project";
     runAndroidProject "/home/dev/MyMiniApp/android" "com.walmartlabs.ern"].
Proof. reflexivity. Qed.

End WorkstationInstances.
